(** * build-data: the CSV-to-JSON content pipeline

    A shallow embedding of [build-data.cjs]: the line tokenizer
    ([parseCSVLine]), the table reader ([parseCSV], [readCSV]), the coercion
    helpers ([toBoolean], [toNumber]) and the join/normalize engine and
    writer of [buildData].

    Conventions of the embedding.
    - A JavaScript string is a [string]: a sequence of code units below 256.
      Whitespace ([trim]) and case mapping ([toLowerCase]) are the
      ECMAScript ones restricted to that range.
    - A record produced by the table reader (a JS object used as a map from
      column name to field) is a [gmap string string] of its own
      properties; a property that is [undefined] is a lookup that gives
      [None]. An assignment under the name [__proto__] reaches the setter
      the object inherits and makes no property ([setProperty]).
    - JavaScript numbers that are finite are rationals ([Q]); the builtin
      [Number] applied to a string is an interface ([NumberBuiltin]) and
      answers [None] for NaN and the infinities.
    - [Array.prototype.sort] is the stable sort the language guarantees; the
      comparator returns the difference of two keys and is kept as such.
    - The file system is the data directory: CSV files and JSON files by
      name, and a platform that says how each write and the creation of the
      directory end. A CSV name can hold something that cannot be read.
    - The console keeps the lines of [console.warn] and [console.error] and
      the closing line of [console.log]; the progress lines of
      [console.log] in between are left out. *)

From Stdlib Require Import QArith Lqa Ascii.
From stdpp Require Import gmap strings list fin_maps sorting.

Local Open Scope string_scope.
Local Open Scope list_scope.

(** ** JavaScript strings *)

Module JsString.

Definition DQUOTE : ascii := ascii_of_nat 34.
Definition COMMA : ascii := ascii_of_nat 44.
Definition CR : ascii := ascii_of_nat 13.
Definition LF : ascii := ascii_of_nat 10.

(** WhiteSpace and LineTerminator code units below 256:
    TAB, LF, VT, FF, CR, SP and NBSP. *)
Definition isWhitespace (c : ascii) : bool :=
  let n := nat_of_ascii c in
  (Nat.leb 9 n && Nat.leb n 13) || Nat.eqb n 32 || Nat.eqb n 160.

Fixpoint trimStart (s : string) : string :=
  match s with
  | EmptyString => EmptyString
  | String c rest => if isWhitespace c then trimStart rest else s
  end.

Fixpoint trimEnd (s : string) : string :=
  match s with
  | EmptyString => EmptyString
  | String c rest =>
      match trimEnd rest with
      | EmptyString => if isWhitespace c then EmptyString else String c EmptyString
      | kept => String c kept
      end
  end.

(** [s.trim()] *)
Definition trim (s : string) : string := trimEnd (trimStart s).

(** Lower-casing of one code unit below 256: A–Z and the Latin-1 capitals
    (0xC0–0xDE without the multiplication sign 0xD7) move up by 32. *)
Definition lowerChar (c : ascii) : ascii :=
  let n := nat_of_ascii c in
  if (Nat.leb 65 n && Nat.leb n 90)
     || (Nat.leb 192 n && Nat.leb n 222 && negb (Nat.eqb n 215))
  then ascii_of_nat (n + 32) else c.

(** [s.toLowerCase()] *)
Fixpoint toLowerCase (s : string) : string :=
  match s with
  | EmptyString => EmptyString
  | String c rest => String (lowerChar c) (toLowerCase rest)
  end.

(** [s.slice(0, n)] *)
Fixpoint sliceFrom0 (n : nat) (s : string) : string :=
  match n, s with
  | S n', String c rest => String c (sliceFrom0 n' rest)
  | _, _ => EmptyString
  end.

(** [s += c] *)
Definition push (s : string) (c : ascii) : string := s +:+ String c EmptyString.

Definition consHead (c : ascii) (ls : list string) : list string :=
  match ls with
  | [] => [String c EmptyString]
  | l :: ls' => String c l :: ls'
  end.

(** [s.split(/\r?\n/)]: a line feed, with the carriage return right before
    it when there is one, separates two lines; a lone carriage return
    stays in its line. *)
Fixpoint splitLines (s : string) : list string :=
  match s with
  | EmptyString => [EmptyString]
  | String c rest =>
      if Ascii.eqb c LF then EmptyString :: splitLines rest
      else
        match rest with
        | String c' rest' =>
            if Ascii.eqb c CR && Ascii.eqb c' LF
            then EmptyString :: splitLines rest'
            else consHead c (splitLines rest)
        | EmptyString => consHead c (splitLines rest)
        end
  end.

(** Truthiness of a string: only the empty string is falsy. *)
Definition nonEmpty (s : string) : bool :=
  match s with EmptyString => false | String _ _ => true end.

End JsString.

Import JsString.

(** ** CSV parsing helpers *)

(** The [Error] objects the script can see. [parseCSVLine] throws the
    message [Unterminated quote in CSV line ${lineNumber}: ${line.slice(0, 80)}…]:
    the two values the template is filled with are kept. A failing call of
    [fs] ([readFileSync], [mkdirSync], [writeFileSync]) throws an error whose
    message comes from the platform: its code and, when the call fails on
    its path (it cannot open the file, it cannot make the directory), the
    path between quotes; a call that fails later, on the open file, has a
    message without the path. The code and the path the message quotes are
    kept. *)
Inductive error : Type :=
  | UnterminatedQuote (lineNumber : nat) (preview : string)
  | FsError (code : string) (path : option string).

(** A call either returns or throws. *)
Inductive outcome (A : Type) : Type :=
  | Return (a : A)
  | Throw (e : error).
Arguments Return {A} a.
Arguments Throw {A} e.

(** The three loop variables of [parseCSVLine]. *)
Record scanner : Type := Scanner {
  result : list string;
  current : string;
  inQuotes : bool
}.

Definition scanner_start : scanner :=
  {| result := []; current := EmptyString; inQuotes := false |}.

Definition emitChar (st : scanner) (c : ascii) : scanner :=
  {| result := result st; current := push (current st) c; inQuotes := inQuotes st |}.

Definition toggleQuotes (st : scanner) : scanner :=
  {| result := result st; current := current st; inQuotes := negb (inQuotes st) |}.

Definition endField (st : scanner) : scanner :=
  {| result := result st ++ [trim (current st)];
     current := EmptyString;
     inQuotes := inQuotes st |}.

(** The [for] loop of [parseCSVLine] over the code units that remain; the
    [i++] of the escaped quote is the recursive call on [rest']. *)
Fixpoint scanLine (chars : string) (st : scanner) : scanner :=
  match chars with
  | EmptyString => st
  | String char rest =>
      if Ascii.eqb char DQUOTE then
        match rest with
        | String next rest' =>
            if inQuotes st && Ascii.eqb next DQUOTE
            then scanLine rest' (emitChar st DQUOTE)
            else scanLine rest (toggleQuotes st)
        | EmptyString => scanLine rest (toggleQuotes st)
        end
      else if Ascii.eqb char COMMA && negb (inQuotes st)
      then scanLine rest (endField st)
      else scanLine rest (emitChar st char)
  end.

Definition parseCSVLine (line : string) (lineNumber : nat)
  : outcome (list string) :=
  let st := scanLine line scanner_start in
  if inQuotes st
  then Throw (UnterminatedQuote lineNumber (sliceFrom0 80 line))
  else Return (result st ++ [trim (current st)]).

(** A record of a table: column name to field. *)
Abbreviation row := (gmap string string).

(** What the script prints with [console.warn] and [console.error], and the
    closing summary of [console.log]. The [catch] of [parseCSV] prints two
    lines for a row: the error with file and line, then that the row is
    skipped. *)
Inductive log_line : Type :=
  | WarnEmpty (filename : string)
  | WarnNotFound (filename : string)
  | ErrorParsing (filename : string) (lineNumber : nat) (err : error)
  | SkippingRow
  | BuildComplete
  | ErrorBuilding (err : error).

(** [csvText.split(/\r?\n/).map((l) => l.trim()).filter((l) => l.length > 0)] *)
Definition nonEmptyLines (csvText : string) : list string :=
  List.filter nonEmpty (List.map trim (splitLines csvText)).

(** [record[key] = value] on an object that started as [{}] and holds
    strings: the record gets the key, except under the name [__proto__],
    where the setter inherited from [Object.prototype] takes the assignment
    and, the value being a string, does nothing. *)
Definition setProperty (record : row) (key value : string) : row :=
  if String.eqb key "__proto__" then record else <[key := value]> record.

(** The [headers.forEach] of [parseCSV]: under each header the record gets
    the field of the same index, or the empty string when [fields[index]] is
    [undefined]; a header that comes twice keeps its last field. *)
Fixpoint fillRecord (headers : list string) (index : nat) (fields : list string)
    (record : row) : row :=
  match headers with
  | [] => record
  | header :: headers' =>
      fillRecord headers' (S index) fields
        (setProperty record header (default EmptyString (fields !! index)))
  end.

(** The [for] loop of [parseCSV] from index [i] on; [rest] holds
    [lines[i]], [lines[i+1]], ... *)
Fixpoint parseRows (filename : string) (headers : list string)
    (rest : list string) (i : nat)
    (records : list row) (log : list log_line) : list row * list log_line :=
  match rest with
  | [] => (records, log)
  | line :: rest' =>
      let lineNumber := i + 1 in
      match parseCSVLine line lineNumber with
      | Return fields =>
          let record := fillRecord headers 0 fields ∅ in
          parseRows filename headers rest' (S i) (records ++ [record]) log
      | Throw err =>
          parseRows filename headers rest' (S i) records
            (log ++ [ErrorParsing filename lineNumber err; SkippingRow])
      end
  end.

(** [parseCSV]: the outcome and what went to the console. The header is
    tokenized outside the [try] block: its error leaves the function. *)
Definition parseCSV (csvText filename : string)
  : outcome (list row) * list log_line :=
  match nonEmptyLines csvText with
  | [] => (Return [], [WarnEmpty filename])
  | header_line :: data_lines =>
      match parseCSVLine header_line 1 with
      | Throw err => (Throw err, [])
      | Return headers =>
          let '(records, log) := parseRows filename headers data_lines 1 [] [] in
          (Return records, log)
      end
  end.

(** ** Simple helpers *)

(** The JavaScript values the helpers tell apart. *)
Inductive jsval : Type :=
  | JUndefined
  | JNull
  | JBool (b : bool)
  | JNum (n : Q)
  | JStr (s : string).

(** A property read from a record: a string, or [undefined]. *)
Definition ofField (f : option string) : jsval :=
  match f with Some s => JStr s | None => JUndefined end.

Definition toBoolean (value : jsval) : bool :=
  match value with
  | JBool b => b
  | JStr s =>
      let v := toLowerCase (trim s) in
      String.eqb v "true" || String.eqb v "1" || String.eqb v "yes"
  | _ => false
  end.

(** The builtin [Number] on a string, as far as [toNumber] looks at it: the
    finite value, or [None] when the result is NaN or infinite. *)
Class NumberBuiltin : Type := Number : string → option Q.

Definition toNumber `{NumberBuiltin} (value : jsval) (fallback : Q) : Q :=
  match value with
  | JUndefined | JNull => fallback
  | JStr EmptyString => fallback
  | JStr s => match Number s with Some n => n | None => fallback end
  | JNum n => n
  | JBool b => if b then 1%Q else 0%Q
  end.

(** On properties: [a || b], [a ?? b], [a || d] for a string literal [d],
    and [a || null]. *)
Definition orElse (a b : option string) : option string :=
  match a with
  | Some s => if nonEmpty s then a else b
  | None => b
  end.

Definition nullish (a b : option string) : option string :=
  match a with Some _ => a | None => b end.

Definition orString (a : option string) (d : string) : string :=
  match a with
  | Some s => if nonEmpty s then s else d
  | None => d
  end.

Definition orNull (a : option string) : option string :=
  match a with
  | Some s => if nonEmpty s then a else None
  | None => None
  end.

(** ** Array.prototype.sort *)

(** [l.sort(compare)] for a comparator that returns a number: stable, an
    element moves in front of another only when the comparator is positive
    the other way round. *)
Section JsSort.
Context {A : Type} (compare : A → A → Q).

Fixpoint sortInsert (x : A) (sorted : list A) : list A :=
  match sorted with
  | [] => [x]
  | y :: sorted' =>
      if Qle_bool (compare x y) 0 then x :: sorted
      else y :: sortInsert x sorted'
  end.

Fixpoint jsSort (l : list A) : list A :=
  match l with
  | [] => []
  | x :: l' => sortInsert x (jsSort l')
  end.
End JsSort.

(** ** The Map of the case-study sections *)

(** A JavaScript [Map] with string keys: the entries in insertion order,
    one per key. *)
Module JsMap.
Section Ops.
Context {V : Type}.

Fixpoint get (m : list (string * V)) (key : string) : option V :=
  match m with
  | [] => None
  | (k, v) :: m' => if String.eqb k key then Some v else get m' key
  end.

(** [m.set(key, v)]: a known key keeps its place, a new one goes last. *)
Fixpoint set (m : list (string * V)) (key : string) (v : V) : list (string * V) :=
  match m with
  | [] => [(key, v)]
  | (k, v') :: m' =>
      if String.eqb k key then (k, v) :: m' else (k, v') :: set m' key v
  end.
End Ops.
End JsMap.

(** ** Output shapes *)

(** An element of a group while it still carries its sort key. *)
Module Entry.
Record t : Type := Make {
  image : option string;
  text : option string;
  sectionTitle : option string;
  order : Q
}.
End Entry.

(** [CaseStudySection] and [FocusAreaSection]: [{ image, text, sectionTitle }];
    [sectionTitle] is a string or [null] ([None]). *)
Module SectionDoc.
Record t : Type := Make {
  image : option string;
  text : option string;
  sectionTitle : option string
}.
End SectionDoc.

Module ProjectDetail.
Record t : Type := Make {
  heading : option string;
  text : option string;
  image : string;
  caseStudyLink : string;
  password : string
}.
End ProjectDetail.

Module Project.
Record t : Type := Make {
  id : string;
  title : option string;
  subtitle : option string;
  description : option string;
  reversed : bool;
  hasDetailPage : bool;
  details : list ProjectDetail.t;
  image : string;
  images : list string;
  caseStudy : list SectionDoc.t;
  displayOrder : Q;
  password : string
}.
End Project.

(** An element of [caseStudyOnly]: [{ id, caseStudy }]. *)
Module CaseStudyOnly.
Record t : Type := Make {
  id : string;
  caseStudy : list SectionDoc.t
}.
End CaseStudyOnly.

Module FocusArea.
Record t : Type := Make {
  id : option string;
  title : option string;
  subtitle : option string;
  description : option string;
  sections : list SectionDoc.t;
  displayOrder : Q;
  password : string
}.
End FocusArea.

Module Experience.
Record t : Type := Make {
  company : option string;
  location : option string;
  startDate : option string;
  endDate : option string;
  role : option string;
  description : option string
}.
End Experience.

Module Education.
Record t : Type := Make {
  school : option string;
  location : option string;
  startDate : option string;
  endDate : option string;
  degree : option string;
  details : option string
}.
End Education.

Module Skill.
Record t : Type := Make {
  category : option string;
  items : option string
}.
End Skill.

Module Resume.
Record t : Type := Make {
  header : row;
  experience : list Experience.t;
  education : list Education.t;
  skills : list Skill.t
}.
End Resume.

(** ** The join/normalize engine of [buildData] *)

Section Engine.
Context `{NumberBuiltin}.

(** The trimmed foreign key of a case-study row: [cs.project_id], else
    [cs.projectId], else the empty string, then [trim()]. *)
Definition caseStudyKey (cs : row) : string :=
  trim (orString (orElse (cs !! "project_id") (cs !! "projectId")) EmptyString).

Definition caseStudyEntry (cs : row) : Entry.t :=
  {| Entry.image := cs !! "image_url";
     Entry.text := cs !! "text";
     Entry.sectionTitle :=
       orNull (orElse (cs !! "section_title") (cs !! "sectionTitle"));
     Entry.order :=
       toNumber (ofField (nullish (cs !! "section_order") (cs !! "sectionOrder"))) 0 |}.

(** The callback of the [reduce] that builds [caseStudyById]. *)
Definition groupStep (acc : list (string * list Entry.t)) (cs : row)
  : list (string * list Entry.t) :=
  let id := caseStudyKey cs in
  if negb (nonEmpty id) then acc
  else
    let entry := default [] (JsMap.get acc id) in
    JsMap.set acc id (entry ++ [caseStudyEntry cs]).

Definition caseStudyById (caseStudySections : list row)
  : list (string * list Entry.t) :=
  fold_left groupStep caseStudySections [].

(** [(a, b) => a.order - b.order] and [({ order, ...rest }) => rest] *)
Definition byOrder (a b : Entry.t) : Q := (Entry.order a - Entry.order b)%Q.

Definition stripOrder (e : Entry.t) : SectionDoc.t :=
  {| SectionDoc.image := Entry.image e;
     SectionDoc.text := Entry.text e;
     SectionDoc.sectionTitle := Entry.sectionTitle e |}.

Definition detailOrder (d : row) : Q :=
  toNumber (ofField (nullish (d !! "detail_order") (d !! "detailOrder"))) 0.

Definition projectDetail (d : row) : ProjectDetail.t :=
  {| ProjectDetail.heading := d !! "heading";
     ProjectDetail.text := d !! "text";
     ProjectDetail.image :=
       orString (orElse (d !! "image") (d !! "image_url")) EmptyString;
     ProjectDetail.caseStudyLink :=
       orString (orElse (d !! "case_study_link") (d !! "caseStudyLink")) EmptyString;
     ProjectDetail.password := orString (d !! "password") EmptyString |}.

(** The trimmed id of a project row: [project.id], else the empty string,
    then [trim()]. *)
Definition projectId (project : row) : string :=
  trim (orString (project !! "id") EmptyString).

Definition displayOrderOf (r : row) : Q :=
  toNumber (ofField (nullish (r !! "display_order") (r !! "displayOrder"))) 0.

(** The callback of [projects.map]. [caseStudyById.get(id)] is the array
    the Map holds and [sort] sorts it in place: the Map holds the sorted
    array afterwards, which is the first component of the result. *)
Definition buildProject (projectDetails : list row)
    (byId : list (string * list Entry.t)) (project : row)
  : list (string * list Entry.t) * Project.t :=
  let id := projectId project in
  let details :=
    List.map projectDetail
      (jsSort (λ a b, (detailOrder a - detailOrder b)%Q)
         (List.filter (λ d, bool_decide (d !! "project_id" = Some id)) projectDetails)) in
  let primaryImage :=
    orString (orElse (project !! "image") (project !! "image_url")) EmptyString in
  let images := if nonEmpty primaryImage then [primaryImage] else [] in
  let '(byId', sorted) :=
    match JsMap.get byId id with
    | Some group =>
        let sorted := jsSort byOrder group in (JsMap.set byId id sorted, sorted)
    | None => (byId, jsSort byOrder [])
    end in
  (byId',
   {| Project.id := id;
      Project.title := project !! "title";
      Project.subtitle := project !! "subtitle";
      Project.description := project !! "description";
      Project.reversed := toBoolean (ofField (project !! "reversed"));
      Project.hasDetailPage := toBoolean (ofField (project !! "hasDetailPage"));
      Project.details := details;
      Project.image := primaryImage;
      Project.images := images;
      Project.caseStudy := List.map stripOrder sorted;
      Project.displayOrder := displayOrderOf project;
      Project.password := orString (project !! "password") EmptyString |}).

(** [projects.map(...)], left to right, with the Map it reads and sorts. *)
Fixpoint mapProjects (projectDetails : list row)
    (byId : list (string * list Entry.t)) (projects : list row)
  : list (string * list Entry.t) * list Project.t :=
  match projects with
  | [] => (byId, [])
  | project :: projects' =>
      let '(byId1, p) := buildProject projectDetails byId project in
      let '(byId2, ps) := mapProjects projectDetails byId1 projects' in
      (byId2, p :: ps)
  end.

Definition byDisplayOrder (a b : Project.t) : Q :=
  (Project.displayOrder a - Project.displayOrder b)%Q.

(** [caseStudyOnly], from the Map as [projects.map] left it. *)
Definition standaloneCaseStudies (byId : list (string * list Entry.t))
    (projectsData : list Project.t) : list CaseStudyOnly.t :=
  List.map
    (λ '(id, sections),
       {| CaseStudyOnly.id := id;
          CaseStudyOnly.caseStudy := List.map stripOrder (jsSort byOrder sections) |})
    (List.filter
       (λ '(id, _),
          negb (existsb (λ p, String.eqb (Project.id p) id) projectsData))
       byId).

(** [projectsData] and [caseStudyOnly] of [buildData]. *)
Definition normalizeProjects (projects projectDetails caseStudySections : list row)
  : list Project.t * list CaseStudyOnly.t :=
  let byId := caseStudyById caseStudySections in
  let '(byId', built) := mapProjects projectDetails byId projects in
  let projectsData := jsSort byDisplayOrder built in
  (projectsData, standaloneCaseStudies byId' projectsData).

Definition projectsData (projects projectDetails caseStudySections : list row)
  : list Project.t :=
  fst (normalizeProjects projects projectDetails caseStudySections).

Definition caseStudyOnly (projects projectDetails caseStudySections : list row)
  : list CaseStudyOnly.t :=
  snd (normalizeProjects projects projectDetails caseStudySections).

Definition sectionOrder (s : row) : Q :=
  toNumber (ofField (nullish (s !! "section_order") (s !! "sectionOrder"))) 0.

Definition focusAreaSection (s : row) : SectionDoc.t :=
  {| SectionDoc.image := s !! "image_url";
     SectionDoc.text := s !! "text";
     SectionDoc.sectionTitle :=
       orNull (orElse (s !! "section_title") (s !! "sectionTitle")) |}.

(** The callback of [focusAreas.map]; [fa.id] is compared as it is. *)
Definition buildFocusArea (focusAreaSections : list row) (fa : row) : FocusArea.t :=
  let id := fa !! "id" in
  let sections :=
    List.map focusAreaSection
      (jsSort (λ a b, (sectionOrder a - sectionOrder b)%Q)
         (List.filter (λ s, bool_decide (s !! "focus_area_id" = id)) focusAreaSections)) in
  {| FocusArea.id := id;
     FocusArea.title := fa !! "title";
     FocusArea.subtitle := fa !! "subtitle";
     FocusArea.description := fa !! "description";
     FocusArea.sections := sections;
     FocusArea.displayOrder := displayOrderOf fa;
     FocusArea.password := orString (fa !! "password") EmptyString |}.

Definition focusAreasData (focusAreas focusAreaSections : list row)
  : list FocusArea.t :=
  jsSort (λ a b, (FocusArea.displayOrder a - FocusArea.displayOrder b)%Q)
    (List.map (buildFocusArea focusAreaSections) focusAreas).

Definition byRowDisplayOrder (a b : row) : Q :=
  (displayOrderOf a - displayOrderOf b)%Q.

Definition experienceEntry (exp : row) : Experience.t :=
  {| Experience.company := exp !! "company";
     Experience.location := exp !! "location";
     Experience.startDate := exp !! "start_date";
     Experience.endDate := exp !! "end_date";
     Experience.role := exp !! "role";
     Experience.description := exp !! "description" |}.

Definition educationEntry (edu : row) : Education.t :=
  {| Education.school := edu !! "school";
     Education.location := edu !! "location";
     Education.startDate := edu !! "start_date";
     Education.endDate := edu !! "end_date";
     Education.degree := edu !! "degree";
     Education.details := edu !! "details" |}.

Definition skillEntry (skill : row) : Skill.t :=
  {| Skill.category := skill !! "category";
     Skill.items := skill !! "items" |}.

Definition resumeData
    (resumeHeader resumeExperience resumeEducation resumeSkills : list row)
  : Resume.t :=
  {| Resume.header :=
       match resumeHeader with
       | first :: _ => first
       | [] => ∅
       end;
     Resume.experience :=
       List.map experienceEntry (jsSort byRowDisplayOrder resumeExperience);
     Resume.education :=
       List.map educationEntry (jsSort byRowDisplayOrder resumeEducation);
     Resume.skills :=
       List.map skillEntry (jsSort byRowDisplayOrder resumeSkills) |}.

End Engine.

(** ** Files, console and the run of the script *)

(** The four values handed to [JSON.stringify]; the text written for a
    value is identified with the value. *)
Inductive document : Type :=
  | ProjectsDoc (projects : list Project.t)
  | FocusAreasDoc (focusAreas : list FocusArea.t)
  | ResumeDoc (resume : Resume.t)
  | CaseStudiesDoc (caseStudies : list CaseStudyOnly.t).

(** What a JSON file of the data directory holds: the text of a document,
    or any other text (such as what an interrupted write leaves). *)
Inductive json_content : Type :=
  | Stringified (d : document)
  | OtherText (s : string).

(** What is under the name of a CSV file: a file with its text, or
    something [fs.existsSync] finds and [fs.readFileSync] cannot read, with
    the code of the platform: it cannot be opened (a file without
    permission) or it cannot be read once open (a directory). *)
Inductive csv_file : Type :=
  | CsvText (text : string)
  | Unreadable (code : string) (onOpen : bool).

(** The data directory, files by name, and the console. *)
Record world : Type := World {
  csvFiles : gmap string csv_file;
  jsonFiles : gmap string json_content;
  console : list log_line
}.

(** How one [fs.writeFileSync] on a file name fails: the file cannot be
    opened for writing and is left as it was, or it is opened, which
    empties it, and the writing stops with [partial] on the file. *)
Inductive write_failure : Type :=
  | OpenFails (code : string)
  | WriteFails (code : string) (partial : string).

(** How one [fs.writeFileSync] on a file name ends: the file holds the new
    text, or the call throws. *)
Inductive write_result : Type :=
  | Written
  | Failed (failure : write_failure).

(** The error a failed write throws, and what it leaves under the name. *)
Definition writeError (failure : write_failure) (name : string) : error :=
  match failure with
  | OpenFails code => FsError code (Some name)
  | WriteFails code _ => FsError code None
  end.

Definition leftBy (failure : write_failure) (old : option json_content)
  : option json_content :=
  match failure with
  | OpenFails _ => old
  | WriteFails _ partial => Some (OtherText partial)
  end.

(** The data directory, which is also the one of the CSV files, when
    [buildData] looks for it before writing: it is there, or it is not and
    [fs.mkdirSync] makes it or throws with a code. *)
Inductive dir_state : Type :=
  | DirExists
  | DirMissing (mkdir : option string).

(** What the platform does when the script writes: to each file, and to the
    directory. *)
Class WriteDevice : Type := {
  writeAttempt : string → write_result;
  dataDirectory : dir_state
}.

(** [path.join(__dirname, "../data")], as the errors of the platform name it. *)
Definition outputDir : string := "../data".

(** Computations of the script: they read and change the world and return
    or throw. *)
Definition M (A : Type) : Type := world → outcome A * world.

#[global] Instance M_ret : MRet M := λ A a w, (Return a, w).
#[global] Instance M_bind : MBind M := λ A B f m w,
  match m w with
  | (Return a, w') => f a w'
  | (Throw e, w') => (Throw e, w')
  end.

Definition logged (w : world) (lines : list log_line) : world :=
  {| csvFiles := csvFiles w; jsonFiles := jsonFiles w;
     console := console w ++ lines |}.

Definition consoleLog (lines : list log_line) : M unit := λ w,
  (Return (), logged w lines).

(** [readCSV]: [[]] and a warning when the file is not there; else
    [fs.readFileSync], which throws on what it cannot read, and [parseCSV]. *)
Definition readCSV (filename : string) : M (list row) := λ w,
  match csvFiles w !! filename with
  | None => (Return [], logged w [WarnNotFound filename])
  | Some (Unreadable code onOpen) =>
      (Throw (FsError code (if onOpen then Some filename else None)), w)
  | Some (CsvText csvText) =>
      let '(r, log) := parseCSV csvText filename in (r, logged w log)
  end.

(** [if (!fs.existsSync(outputDir)) fs.mkdirSync(outputDir, { recursive: true })] *)
Definition ensureOutputDir `{WriteDevice} : M unit := λ w,
  match dataDirectory with
  | DirExists => (Return (), w)
  | DirMissing None => (Return (), w)
  | DirMissing (Some code) => (Throw (FsError code (Some outputDir)), w)
  end.

Definition writeFileSync `{WriteDevice} (name : string) (data : document) : M unit :=
  λ w,
  match writeAttempt name with
  | Written =>
      (Return (),
       {| csvFiles := csvFiles w;
          jsonFiles := <[name := Stringified data]> (jsonFiles w);
          console := console w |})
  | Failed failure =>
      (Throw (writeError failure name),
       {| csvFiles := csvFiles w;
          jsonFiles := partial_alter (leftBy failure) name (jsonFiles w);
          console := console w |})
  end.

Section Run.
Context `{NumberBuiltin} `{WriteDevice}.

(** The four [fs.writeFileSync] calls of [buildData], in their order. *)
Definition writeDocuments (projectsDoc focusAreasDoc resumeDoc caseStudiesDoc : document)
  : M unit :=
  writeFileSync "projects.json" projectsDoc;;
  writeFileSync "focus-areas.json" focusAreasDoc;;
  writeFileSync "resume.json" resumeDoc;;
  writeFileSync "case-studies.json" caseStudiesDoc.

Definition buildData : M unit :=
  projects ← readCSV "projects.csv";
  projectDetails ← readCSV "project_details.csv";
  caseStudySections ← readCSV "case_study_sections.csv";
  focusAreas ← readCSV "focus_areas.csv";
  focusAreaSections ← readCSV "focus_area_sections.csv";
  resumeHeader ← readCSV "resume_header.csv";
  resumeExperience ← readCSV "resume_experience.csv";
  resumeEducation ← readCSV "resume_education.csv";
  resumeSkills ← readCSV "resume_skills.csv";
  let '(projectsData, caseStudyOnly) :=
    normalizeProjects projects projectDetails caseStudySections in
  let focusAreasData := focusAreasData focusAreas focusAreaSections in
  ensureOutputDir;;
  let resumeData :=
    resumeData resumeHeader resumeExperience resumeEducation resumeSkills in
  writeDocuments (ProjectsDoc projectsData) (FocusAreasDoc focusAreasData)
    (ResumeDoc resumeData) (CaseStudiesDoc caseStudyOnly);;
  consoleLog [BuildComplete].

(** The [try { buildData() } catch] at the end of the script: the world
    it leaves and the exit code of the process. *)
Definition main (w : world) : world * nat :=
  match buildData w with
  | (Return _, w') => (w', 0)
  | (Throw err, w') => (logged w' [ErrorBuilding err], 1)
  end.
End Run.

(** ** A [Number] for the examples *)

(** An instance for the examples and nothing else: it reads the empty
    string as 0 and a short decimal integer literal, with an optional sign,
    as the builtin does, and takes every other string as NaN. It is no
    model of the builtin beyond the strings of the examples: it does not
    round long literals and knows no fraction or exponent. *)
Module Examples.

Definition digitValue (c : ascii) : option Z :=
  let n := nat_of_ascii c in
  if Nat.leb 48 n && Nat.leb n 57 then Some (Z.of_nat (n - 48)) else None.

Fixpoint digitsValue (s : string) (acc : Z) : option Z :=
  match s with
  | EmptyString => Some acc
  | String c rest =>
      match digitValue c with
      | Some d => digitsValue rest (10 * acc + d)
      | None => None
      end
  end.

Definition decimalNumber : NumberBuiltin := λ s,
  match s with
  | EmptyString => Some 0%Q
  | String c rest =>
      if Ascii.eqb c (ascii_of_nat 45) then
        (if nonEmpty rest then (λ z, inject_Z (- z)) <$> digitsValue rest 0 else None)
      else if Ascii.eqb c (ascii_of_nat 43) then
        (if nonEmpty rest then inject_Z <$> digitsValue rest 0 else None)
      else inject_Z <$> digitsValue s 0
  end.

(** Records written as lists of column/field pairs. *)
Definition mkRow (fields : list (string * string)) : row := list_to_map fields.


(** A table with CR LF and LF line ends, a blank line and a line of spaces,
    whose first column is named [__proto__]. *)
Definition table_proto_header : string :=
  "__proto__,a"
  +:+ String CR (String LF (String LF ("  " +:+ String LF ("x,y" +:+ String LF EmptyString)))).

(** A table whose header line opens a quote and never closes it, followed
    by a data line in order. *)
Definition bad_header_line : string := String DQUOTE "id,title".
Definition table_bad_header : string := bad_header_line +:+ String LF "a,b".

(** A data directory that holds that table as [projects.csv] and nothing
    else, with a silent console. *)
Definition world_bad_header : world :=
  {| csvFiles := {[ "projects.csv" := CsvText table_bad_header ]};
     jsonFiles := ∅;
     console := [] |}.


(** A project, and a detail row, a case-study row and a focus-area section
    row that name their parent under the snake_case and under the camelCase
    spelling of the foreign-key column. *)
Definition project_p1 : row := mkRow [("id", "p1"); ("title", "One")].
Definition detail_snake : row := mkRow [("project_id", "p1"); ("heading", "h")].
Definition detail_camel : row := mkRow [("projectId", "p1"); ("heading", "h")].
Definition section_snake : row := mkRow [("project_id", "p1"); ("text", "t")].
Definition section_camel : row := mkRow [("projectId", "p1"); ("text", "t")].
Definition focus_f1 : row := mkRow [("id", "f1"); ("title", "Focus")].
Definition focus_section_snake : row := mkRow [("focus_area_id", "f1"); ("text", "t")].
Definition focus_section_camel : row := mkRow [("focusAreaId", "f1"); ("text", "t")].

(** A project row whose id field has spaces around it. *)
Definition project_spaced : row := mkRow [("id", " p1 "); ("title", "Spaced")].

(** Rows of the resume tables: two header rows, and rows out of order. *)
Definition resume_head : row := mkRow [("name", "Ada"); ("title", "Engineer")].
Definition resume_head2 : row := mkRow [("name", "Other")].
Definition exp_a : row :=
  mkRow [("company", "A"); ("start_date", "2019"); ("display_order", "2")].
Definition exp_b : row := mkRow [("company", "B"); ("role", "r"); ("displayOrder", "1")].
Definition exp_c : row := mkRow [("company", "C"); ("display_order", EmptyString)].
Definition edu_a : row := mkRow [("school", "S1"); ("display_order", "1")].
Definition edu_b : row := mkRow [("school", "S2"); ("end_date", "2001")].
Definition skill_a : row :=
  mkRow [("category", "X"); ("items", "i, j"); ("display_order", "2")].
Definition skill_b : row := mkRow [("category", "Y"); ("display_order", "1")].

(** Case-study rows of p1 and of solo, out of order, under both spellings
    of the columns, with and without spaces around the key. *)
Definition sec_b : row :=
  mkRow [("project_id", "p1"); ("text", "second"); ("section_order", "2")].
Definition sec_a : row :=
  mkRow [("projectId", " p1"); ("text", "first"); ("sectionOrder", "1");
         ("section_title", "Intro")].
Definition sec_z : row :=
  mkRow [("project_id", "p1"); ("text", "zeroth"); ("section_order", EmptyString)].
Definition solo_b : row :=
  mkRow [("project_id", "solo"); ("text", "s2"); ("section_order", "2")].
Definition solo_a : row :=
  mkRow [("project_id", "solo "); ("text", "s1"); ("section_order", "1");
         ("image_url", "i.png")].
Definition sections_out_of_order : list row := [sec_b; solo_b; sec_a; solo_a; sec_z].

(** Detail rows of p1 out of order, and one of another project. *)
Definition det_b : row :=
  mkRow [("project_id", "p1"); ("heading", "B"); ("detail_order", "2")].
Definition det_a : row :=
  mkRow [("project_id", "p1"); ("heading", "A"); ("detailOrder", "1");
         ("image_url", "a.png"); ("caseStudyLink", "solo")].
Definition det_z : row := mkRow [("project_id", "p1"); ("heading", "Z")].
Definition det_other : row := mkRow [("project_id", "p2"); ("heading", "O")].
Definition details_out_of_order : list row := [det_b; det_other; det_a; det_z].

(** Focus-area rows out of order, and section rows of f1 out of order with
    one of another focus area. *)
Definition focus_a : row := mkRow [("id", "fa"); ("display_order", "2")].
Definition focus_b : row := mkRow [("id", "fb"); ("displayOrder", "1")].
Definition focus_c : row := mkRow [("id", "fc"); ("title", "C")].
Definition fsec_b : row :=
  mkRow [("focus_area_id", "f1"); ("text", "b"); ("section_order", "2")].
Definition fsec_a : row :=
  mkRow [("focus_area_id", "f1"); ("text", "a"); ("sectionOrder", "1");
         ("sectionTitle", "T")].
Definition fsec_z : row :=
  mkRow [("focus_area_id", "f1"); ("text", "z"); ("section_order", EmptyString)].
Definition fsec_other : row := mkRow [("focus_area_id", "f2"); ("text", "o")].
Definition focus_sections_out_of_order : list row := [fsec_b; fsec_other; fsec_a; fsec_z].

(** Case-study rows of a project that exists (p1), of an id without
    project (solo), and without a foreign key. *)
Definition section_solo : row := mkRow [("project_id", "solo"); ("text", "s")].
Definition section_keyless : row := mkRow [("project_id", EmptyString); ("text", "k")].

(** A data directory without CSV files whose four documents hold an
    earlier text, and a platform on which writing [focus-areas.json] fails
    and leaves the file as it was. *)
Definition world_old_outputs : world :=
  {| csvFiles := ∅;
     jsonFiles :=
       list_to_map
         [("projects.json", OtherText "old"); ("focus-areas.json", OtherText "old");
          ("resume.json", OtherText "old"); ("case-studies.json", OtherText "old")];
     console := [] |}.



(** A platform whose data directory is missing and cannot be made. *)
Definition no_directory : WriteDevice :=
  {| writeAttempt := λ _, Written;
     dataDirectory := DirMissing (Some "EACCES") |}.

(** A data directory where [projects.csv] is a directory. *)
Definition world_csv_directory : world :=
  {| csvFiles := {[ "projects.csv" := Unreadable "EISDIR" false ]};
     jsonFiles := ∅;
     console := [] |}.

End Examples.

(** ** Vocabulary of the statements *)

(** A list in ascending order of a numeric key. *)
Definition ascending {A : Type} (key : A → Q) (l : list A) : Prop :=
  StronglySorted (λ a b, (key a <= key b)%Q) l.


(** The field of a column, the empty string when the row has none. *)
Definition fieldOr (r : row) (column : string) : string :=
  default EmptyString (r !! column).

(** The field of the first column when it is not empty, else the field of
    the second. *)
Definition firstFilled (r : row) (first second : string) : string :=
  match r !! first with
  | Some (String c s) => String c s
  | _ => fieldOr r second
  end.

(** A string, or [null] for the empty one. *)
Definition orNullString (s : string) : option string :=
  match s with
  | EmptyString => None
  | _ => Some s
  end.

(** [key] reads the number of a row from the column [snake], and from the
    column [camel] when the row has no column [snake]: 0 when the field is
    missing, empty or not read as a finite number by [Number], else the
    number [Number] reads. *)
Definition readsNumber `{NumberBuiltin} (snake camel : string) (key : row → Q)
  : Prop :=
  ∀ r : row,
    let value :=
      match r !! snake with
      | Some s => Some s
      | None => r !! camel
      end in
    (value = None ∨ value = Some EmptyString
     ∨ (∃ s, value = Some s ∧ Number s = None) → key r = 0%Q)
    ∧ (∀ s n, value = Some s → s ≠ EmptyString → Number s = Some n → key r = n).

(** The section document of a case-study row or of a focus-area section
    row, read off the columns. *)
Definition sectionOfRow (r : row) : SectionDoc.t :=
  {| SectionDoc.image := r !! "image_url";
     SectionDoc.text := r !! "text";
     SectionDoc.sectionTitle :=
       orNullString (firstFilled r "section_title" "sectionTitle") |}.

(** The case-study rows whose trimmed foreign key is [key], in table order. *)
Definition rowsOfKey (caseStudySections : list row) (key : string) : list row :=
  List.filter
    (λ cs, String.eqb (trim (firstFilled cs "project_id" "projectId")) key)
    caseStudySections.

(** The case-study rows a key stands for: rows without key belong to no
    key. *)
Definition sectionRowsOf (caseStudySections : list row) (key : string) : list row :=
  if nonEmpty key then rowsOfKey caseStudySections key else [].

(** The detail document of a detail row, read off the columns. *)
Definition detailOfRow (d : row) : ProjectDetail.t :=
  {| ProjectDetail.heading := d !! "heading";
     ProjectDetail.text := d !! "text";
     ProjectDetail.image := firstFilled d "image" "image_url";
     ProjectDetail.caseStudyLink := firstFilled d "case_study_link" "caseStudyLink";
     ProjectDetail.password := fieldOr d "password" |}.

(** The column names that become keys of a record: all but [__proto__]. *)
Definition keysOf (headers : list string) : gset string :=
  list_to_set headers ∖ {["__proto__"]}.

(** The record [parseCSV] builds from the fields of one data line. *)
Definition recordOf (headers fields : list string) : row :=
  fillRecord headers 0 fields ∅.

(** The data lines that tokenize, each with its fields, in table order;
    [i] is the index in [lines] of the first of them. *)
Fixpoint validRows (headers : list string) (rest : list string) (i : nat)
  : list row :=
  match rest with
  | [] => []
  | line :: rest' =>
      match parseCSVLine line (i + 1) with
      | Return fields => recordOf headers fields :: validRows headers rest' (S i)
      | Throw _ => validRows headers rest' (S i)
      end
  end.

(** The two console lines of each data line that does not tokenize. *)
Fixpoint rowErrors (filename : string) (rest : list string) (i : nat)
  : list log_line :=
  match rest with
  | [] => []
  | line :: rest' =>
      match parseCSVLine line (i + 1) with
      | Return _ => rowErrors filename rest' (S i)
      | Throw err =>
          ErrorParsing filename (i + 1) err :: SkippingRow
          :: rowErrors filename rest' (S i)
      end
  end.

(** The first of those two lines, for each data line that does not
    tokenize. *)
Fixpoint rowFailures (filename : string) (rest : list string) (i : nat)
  : list log_line :=
  match rest with
  | [] => []
  | line :: rest' =>
      match parseCSVLine line (i + 1) with
      | Return _ => rowFailures filename rest' (S i)
      | Throw err => ErrorParsing filename (i + 1) err :: rowFailures filename rest' (S i)
      end
  end.

(** The console lines of a list of row errors: each error, followed by
    the notice that the row is skipped. *)
Definition withSkipNotice (errors : list log_line) : list log_line :=
  flat_map (λ entry, [entry; SkippingRow]) errors.

(** The group of a key: the entries of the case-study rows whose trimmed
    foreign key is that key, in table order. *)
Definition groupOf `{NumberBuiltin} (caseStudySections : list row) (key : string)
  : list Entry.t :=
  List.map caseStudyEntry
    (List.filter (λ cs, String.eqb (caseStudyKey cs) key) caseStudySections).

(** Two states of the Map that hold the same keys in the same order and,
    under each key, arrays that sort to the same array. *)
Definition sameUpToSort (m m0 : list (string * list Entry.t)) : Prop :=
  Forall2 (λ e e0, e.1 = e0.1 ∧ jsSort byOrder e.2 = jsSort byOrder e0.2) m m0.

(** The project [projects.map] builds from a row when the Map is [byId]. *)
Definition projectOf `{NumberBuiltin} (projectDetails : list row)
    (byId : list (string * list Entry.t)) (project : row) : Project.t :=
  (buildProject projectDetails byId project).2.

(** [sorted] is [input] in ascending order of the key, the elements of one
    key in the order they have in [input]. *)
Definition stablySorted {A : Type} (key : A → Q) (input sorted : list A) : Prop :=
  sorted ≡ₚ input
  ∧ ascending key sorted
  ∧ ∀ q, List.filter (λ a, Qeq_bool (key a) q) sorted
         = List.filter (λ a, Qeq_bool (key a) q) input.

(** The nine tables [buildData] reads, in the order it reads them. *)
Record tables : Type := Tables {
  t_projects : list row;
  t_projectDetails : list row;
  t_caseStudySections : list row;
  t_focusAreas : list row;
  t_focusAreaSections : list row;
  t_resumeHeader : list row;
  t_resumeExperience : list row;
  t_resumeEducation : list row;
  t_resumeSkills : list row
}.

Definition readTables : M tables :=
  projects ← readCSV "projects.csv";
  projectDetails ← readCSV "project_details.csv";
  caseStudySections ← readCSV "case_study_sections.csv";
  focusAreas ← readCSV "focus_areas.csv";
  focusAreaSections ← readCSV "focus_area_sections.csv";
  resumeHeader ← readCSV "resume_header.csv";
  resumeExperience ← readCSV "resume_experience.csv";
  resumeEducation ← readCSV "resume_education.csv";
  resumeSkills ← readCSV "resume_skills.csv";
  mret (Tables projects projectDetails caseStudySections focusAreas
          focusAreaSections resumeHeader resumeExperience resumeEducation
          resumeSkills).

(** The four documents [buildData] writes, in the order it writes them,
    and the names it writes them under. *)
Definition documentsOf `{NumberBuiltin} (t : tables) : list document :=
  [ProjectsDoc
     (projectsData (t_projects t) (t_projectDetails t) (t_caseStudySections t));
   FocusAreasDoc (focusAreasData (t_focusAreas t) (t_focusAreaSections t));
   ResumeDoc
     (resumeData (t_resumeHeader t) (t_resumeExperience t)
        (t_resumeEducation t) (t_resumeSkills t));
   CaseStudiesDoc
     (caseStudyOnly (t_projects t) (t_projectDetails t) (t_caseStudySections t))].

Definition outputNames : list string :=
  ["projects.json"; "focus-areas.json"; "resume.json"; "case-studies.json"].



(** The data directory is there when the run comes to write, or
    [fs.mkdirSync] makes it. *)
Definition directoryReady `{WriteDevice} : Prop :=
  ∀ message, dataDirectory ≠ DirMissing (Some message).

(** Writing a list of documents one after the other, and the files that
    hold them once all are written. *)
Fixpoint writeAll `{WriteDevice} (files : list (string * document)) : M unit :=
  match files with
  | [] => mret ()
  | (name, doc) :: files' => writeFileSync name doc;; writeAll files'
  end.

Definition written (files : list (string * document))
    (m : gmap string json_content) : gmap string json_content :=
  fold_left (λ m f, <[f.1 := Stringified f.2]> m) files m.

(** ** The data service that reads the generated documents *)

(** The accessors of the data service over the imported documents
    ([projectsData], [standaloneCaseStudies]); the promises they return are
    resolved at once and are left out. *)
Module DataService.

(** [fetchProjectById]: the first project whose id is the trimmed argument. *)
Definition fetchProjectById (projectsData : list Project.t) (projectId : string)
  : option Project.t :=
  let id := trim projectId in
  List.find (λ project, String.eqb (Project.id project) id) projectsData.

(** The test both [find] calls of [findProjectDetailByCaseStudyLink] make on
    a detail: its link, the empty string when falsy, trimmed, against the
    trimmed argument. *)
Definition linksTo (caseStudyId : string) (detail : ProjectDetail.t) : bool :=
  String.eqb
    (trim (orString (Some (ProjectDetail.caseStudyLink detail)) EmptyString))
    (trim caseStudyId).

Definition findProjectDetailByCaseStudyLink (projectsData : list Project.t)
    (caseStudyId : string) : option (Project.t * ProjectDetail.t) :=
  match
    List.find (λ project, existsb (linksTo caseStudyId) (Project.details project))
      projectsData
  with
  | None => None
  | Some found =>
      match List.find (linksTo caseStudyId) (Project.details found) with
      | None => None
      | Some detail => Some (found, detail)
      end
  end.

(** [fetchCaseStudy]: the sections embedded in the project of that id when
    it has some, else those of the standalone entry of that id when it has
    some, else none. *)
Definition fetchCaseStudy (projectsData : list Project.t)
    (standalone : list CaseStudyOnly.t) (projectId : string) : list SectionDoc.t :=
  let id := trim projectId in
  let embedded :=
    match List.find (λ p, String.eqb (Project.id p) id) projectsData with
    | Some project => Project.caseStudy project
    | None => []
    end in
  if Nat.ltb 0 (length embedded) then embedded
  else
    let separate :=
      match List.find (λ cs, String.eqb (CaseStudyOnly.id cs) id) standalone with
      | Some cs => CaseStudyOnly.caseStudy cs
      | None => []
      end in
    if Nat.ltb 0 (length separate) then separate else [].

End DataService.

(** ** Vocabulary of the further statements *)

(** The number of double quotes of a line. *)
Fixpoint countQuotes (s : string) : nat :=
  match s with
  | EmptyString => 0
  | String c rest => (if Ascii.eqb c DQUOTE then 1 else 0) + countQuotes rest
  end.

(** A field as a CSV writer puts it on a line: as it is, or between double
    quotes with every double quote of the text written twice. *)
Inductive cell : Type :=
  | Plain (text : string)
  | Quoted (text : string).

Definition cellText (c : cell) : string :=
  match c with Plain text | Quoted text => text end.

Fixpoint escapeQuotes (s : string) : string :=
  match s with
  | EmptyString => EmptyString
  | String c rest =>
      if Ascii.eqb c DQUOTE
      then String DQUOTE (String DQUOTE (escapeQuotes rest))
      else String c (escapeQuotes rest)
  end.

Definition encodeCell (c : cell) : string :=
  match c with
  | Plain text => text
  | Quoted text => String DQUOTE (escapeQuotes text +:+ String DQUOTE EmptyString)
  end.

(** Strings joined by a separator. *)
Fixpoint joinWith (sep : string) (parts : list string) : string :=
  match parts with
  | [] => EmptyString
  | [part] => part
  | part :: parts' => part +:+ sep +:+ joinWith sep parts'
  end.

(** A string without any of the code units that [avoid] accepts. *)
Fixpoint without (avoid : ascii → bool) (s : string) : bool :=
  match s with
  | EmptyString => true
  | String c rest => negb (avoid c) && without avoid rest
  end.

Definition isDelimiter (c : ascii) : bool := Ascii.eqb c DQUOTE || Ascii.eqb c COMMA.
Definition isLineBreak (c : ascii) : bool := Ascii.eqb c CR || Ascii.eqb c LF.

(** A cell that can stand on a line: a plain one has no double quote and no
    comma. *)
Definition cellOk (c : cell) : bool :=
  match c with
  | Plain text => without isDelimiter text
  | Quoted _ => true
  end.

(** What [parseCSVLine] pushes at the end of the line. *)
Definition finishLine (st : scanner) : list string :=
  result st ++ [trim (current st)].

(** A string that does not begin with whitespace. *)
Definition startsClean (s : string) : Prop :=
  match s with
  | EmptyString => True
  | String c _ => isWhitespace c = false
  end.

(** A string that trimming leaves as it is. *)
Definition trimmed (field : string) : Prop := trim field = field.

(** What [readCSV] returns or throws, as a function of the CSV files. *)
Definition readPure (csv : gmap string csv_file) (filename : string)
  : outcome (list row) :=
  match csv !! filename with
  | None => Return []
  | Some (Unreadable code onOpen) =>
      Throw (FsError code (if onOpen then Some filename else None))
  | Some (CsvText csvText) => (parseCSV csvText filename).1
  end.

(** The files a run leaves when every write succeeds. *)
Definition outputFiles `{NumberBuiltin} (t : tables) : list (string * document) :=
  [("projects.json",
    ProjectsDoc
      (projectsData (t_projects t) (t_projectDetails t) (t_caseStudySections t)));
   ("focus-areas.json",
    FocusAreasDoc (focusAreasData (t_focusAreas t) (t_focusAreaSections t)));
   ("resume.json",
    ResumeDoc
      (resumeData (t_resumeHeader t) (t_resumeExperience t)
         (t_resumeEducation t) (t_resumeSkills t)));
   ("case-studies.json",
    CaseStudiesDoc
      (caseStudyOnly (t_projects t) (t_projectDetails t) (t_caseStudySections t)))].

(** Sequencing of calls that return or throw. *)
Definition andThen {A B : Type} (o : outcome A) (k : A → outcome B) : outcome B :=
  match o with
  | Return a => k a
  | Throw e => Throw e
  end.

(** The tables a run reads, or the error of the first table that cannot be
    read or whose header line throws, as a function of the CSV files. *)
Definition tablesOf (csv : gmap string csv_file) : outcome tables :=
  andThen (readPure csv "projects.csv") (λ projects,
  andThen (readPure csv "project_details.csv") (λ projectDetails,
  andThen (readPure csv "case_study_sections.csv") (λ caseStudySections,
  andThen (readPure csv "focus_areas.csv") (λ focusAreas,
  andThen (readPure csv "focus_area_sections.csv") (λ focusAreaSections,
  andThen (readPure csv "resume_header.csv") (λ resumeHeader,
  andThen (readPure csv "resume_experience.csv") (λ resumeExperience,
  andThen (readPure csv "resume_education.csv") (λ resumeEducation,
  andThen (readPure csv "resume_skills.csv") (λ resumeSkills,
  Return (Tables projects projectDetails caseStudySections focusAreas
            focusAreaSections resumeHeader resumeExperience resumeEducation
            resumeSkills)))))))))).

(** The nine tables of a run, in the order they are read. *)
Definition sourceNames : list string :=
  ["projects.csv"; "project_details.csv"; "case_study_sections.csv";
   "focus_areas.csv"; "focus_area_sections.csv"; "resume_header.csv";
   "resume_experience.csv"; "resume_education.csv"; "resume_skills.csv"].

(** A source that does not end the run: there is nothing under the name, or
    there is a text that has no line but blank ones or whose first line
    that is not blank has an even number of double quotes. *)
Definition readable (csv : gmap string csv_file) (filename : string) : Prop :=
  match csv !! filename with
  | None => True
  | Some (Unreadable _ _) => False
  | Some (CsvText csvText) =>
      match List.filter nonEmpty (List.map trim (splitLines csvText)) with
      | [] => True
      | header_line :: _ => Nat.even (countQuotes header_line) = true
      end
  end.

(** A platform on which every write succeeds. *)
Definition all_writable : WriteDevice :=
  {| writeAttempt := λ _, Written; dataDirectory := DirExists |}.

(** * Properties *)

(** ** Array.prototype.sort with a difference-of-keys comparator *)

Section JsSortFacts.
Context {A : Type} (key : A → Q) (compare : A → A → Q).
Hypothesis compare_key : ∀ a b, compare a b = (key a - key b)%Q.

Lemma compare_le a b : Qle_bool (compare a b) 0 = true ↔ (key a <= key b)%Q.
Proof. rewrite compare_key, Qle_bool_iff. split; intros; lra. Qed.

Lemma sortInsert_perm x l : sortInsert compare x l ≡ₚ x :: l.
Proof.
  induction l as [|y l IH]; simpl; [done|].
  destruct (Qle_bool (compare x y) 0); [done|].
  rewrite IH. apply Permutation_swap.
Qed.

Lemma jsSort_perm l : jsSort compare l ≡ₚ l.
Proof.
  induction l as [|x l IH]; simpl; [done|].
  by rewrite sortInsert_perm, IH.
Qed.

Lemma jsSort_length l : length (jsSort compare l) = length l.
Proof. by rewrite jsSort_perm. Qed.

Lemma jsSort_elem_of a l : a ∈ jsSort compare l ↔ a ∈ l.
Proof. by rewrite jsSort_perm. Qed.

Lemma sortInsert_ascending x l :
  ascending key l → ascending key (sortInsert compare x l).
Proof.
  unfold ascending. induction 1 as [|y l Hl IH Hy]; simpl.
  - repeat constructor.
  - destruct (Qle_bool (compare x y) 0) eqn:Hxy.
    + apply compare_le in Hxy. constructor; [by constructor|].
      constructor; [done|].
      eapply Forall_impl; [exact Hy|]. intros z Hz. simpl in Hz. lra.
    + assert (key y <= key x)%Q as Hyx.
      { destruct (Qlt_le_dec (key x) (key y)) as [Hlt|Hle]; [|done].
        assert (Qle_bool (compare x y) 0 = true) as Ht
          by (apply compare_le; lra).
        congruence. }
      constructor; [done|].
      rewrite sortInsert_perm. by constructor.
Qed.

Lemma jsSort_ascending l : ascending key (jsSort compare l).
Proof.
  induction l; simpl; [constructor|]. by apply sortInsert_ascending.
Qed.

(** Stability: the elements of one key keep the order they had. *)
Lemma sortInsert_stable q x l :
  List.filter (λ a, Qeq_bool (key a) q) (sortInsert compare x l)
  = List.filter (λ a, Qeq_bool (key a) q) (x :: l).
Proof.
  induction l as [|y l IH]; [done|].
  cbn [sortInsert]. destruct (Qle_bool (compare x y) 0) eqn:Hxy; [done|].
  cbn [List.filter] in *. rewrite IH.
  destruct (Qeq_bool (key x) q) eqn:Hx; [|done].
  destruct (Qeq_bool (key y) q) eqn:Hy; [|done].
  apply Qeq_bool_iff in Hx, Hy.
  assert (Qle_bool (compare x y) 0 = true) as Ht
    by (apply compare_le; rewrite Hx, Hy; lra).
  congruence.
Qed.

Lemma jsSort_stable q l :
  List.filter (λ a, Qeq_bool (key a) q) (jsSort compare l)
  = List.filter (λ a, Qeq_bool (key a) q) l.
Proof.
  induction l as [|x l IH]; [done|].
  cbn [jsSort]. rewrite sortInsert_stable. cbn [List.filter]. by rewrite IH.
Qed.

(** Sorting a sorted array changes nothing. *)
Lemma jsSort_ascending_id l : ascending key l → jsSort compare l = l.
Proof.
  unfold ascending. induction 1 as [|x l Hl IH Hx]; [done|].
  cbn [jsSort]. rewrite IH. destruct l as [|y l]; [done|].
  cbn [sortInsert]. apply Forall_cons in Hx as [Hxy _].
  apply compare_le in Hxy. by rewrite Hxy.
Qed.

Lemma jsSort_idempotent l : jsSort compare (jsSort compare l) = jsSort compare l.
Proof. apply jsSort_ascending_id, jsSort_ascending. Qed.
End JsSortFacts.
(** ** Tokenizer: quoting *)

Section Tokenizer.

Lemma scanLine_comma_in_quotes rest st :
  inQuotes st = true →
  scanLine (String COMMA rest) st = scanLine rest (emitChar st COMMA).
Proof. intros Hq. simpl. by rewrite Hq. Qed.

Lemma scanLine_escaped_quote rest st :
  inQuotes st = true →
  scanLine (String DQUOTE (String DQUOTE rest)) st
  = scanLine rest (emitChar st DQUOTE).
Proof. intros Hq. simpl. by rewrite Hq. Qed.

End Tokenizer.

(** The two lines of the examples, with DQUOTE written q:
    a,qb,cq,d and a,qbqqcq,d. *)
Definition line_quoted_comma : string :=
  "a," +:+ String DQUOTE ("b,c" +:+ String DQUOTE ",d").
Definition line_escaped_quote : string :=
  "a," +:+ String DQUOTE ("b" +:+ String DQUOTE (String DQUOTE ("c" +:+ String DQUOTE ",d"))).

(** C7. Inside quote-mode a comma is field content and a double quote
    followed at once by a second one is one literal quote character; the
    line a,qb,cq,d (q the double quote) tokenizes to the three fields
    a / b,c / d and the line a,qbqqcq,d to a / bqc / d. *)
Theorem parseCSVLine_quoting :
  (∀ rest st, inQuotes st = true →
     scanLine (String COMMA rest) st
     = scanLine rest {| result := result st;
                        current := current st +:+ ",";
                        inQuotes := true |})
  ∧ (∀ rest st, inQuotes st = true →
     scanLine (String DQUOTE (String DQUOTE rest)) st
     = scanLine rest {| result := result st;
                        current := current st +:+ String DQUOTE EmptyString;
                        inQuotes := true |})
  ∧ (∀ n, parseCSVLine line_quoted_comma n = Return ["a"; "b,c"; "d"])
  ∧ (∀ n, parseCSVLine line_escaped_quote n
          = Return ["a"; "b" +:+ String DQUOTE "c"; "d"]).
Proof.
  split; [|split; [|split]].
  - intros rest st Hq. rewrite scanLine_comma_in_quotes by done.
    unfold emitChar, push. by rewrite Hq.
  - intros rest st Hq. rewrite scanLine_escaped_quote by done.
    unfold emitChar, push. by rewrite Hq.
  - intros n. reflexivity.
  - intros n. reflexivity.
Qed.

(** At the two example lines, with the scanner inside a quoted field. *)
Lemma parseCSVLine_quoting_witness :
  scanLine ",c" {| result := ["a"]; current := "b"; inQuotes := true |}
  = scanLine "c" {| result := ["a"]; current := "b,"; inQuotes := true |}.
Proof.
  exact (proj1 parseCSVLine_quoting "c"
           {| result := ["a"]; current := "b"; inQuotes := true |} eq_refl).
Defined.

(** ** Table reader *)

Lemma parseCSVLine_lineNumber line n m fields :
  parseCSVLine line n = Return fields → parseCSVLine line m = Return fields.
Proof.
  unfold parseCSVLine. by destruct (inQuotes (scanLine line scanner_start)).
Qed.


Lemma parseCSVLine_unterminated line n :
  inQuotes (scanLine line scanner_start) = true →
  parseCSVLine line n = Throw (UnterminatedQuote n (sliceFrom0 80 line)).
Proof. unfold parseCSVLine. by intros ->. Qed.

Lemma fillRecord_dom headers index fields (record : row) :
  dom (fillRecord headers index fields record) = keysOf headers ∪ dom record.
Proof.
  unfold keysOf. revert index record.
  induction headers as [|h headers IH]; intros index record; cbn [fillRecord].
  - set_solver.
  - rewrite IH. unfold setProperty. destruct (String.eqb h "__proto__") eqn:Hh.
    + apply String.eqb_eq in Hh as ->. set_solver.
    + apply String.eqb_neq in Hh. rewrite dom_insert_L. set_solver.
Qed.





Lemma parseRows_spec filename headers rest i records log :
  parseRows filename headers rest i records log
  = (records ++ validRows headers rest i, log ++ rowErrors filename rest i).
Proof.
  revert i records log. induction rest as [|line rest IH]; intros i records log.
  - simpl. by rewrite !app_nil_r.
  - cbn [parseRows validRows rowErrors].
    destruct (parseCSVLine line (i + 1)) as [fields|err].
    + rewrite IH. unfold recordOf. by rewrite <- app_assoc.
    + rewrite IH. by rewrite <- app_assoc.
Qed.

(** [parseCSV] in one equation: on a table whose header tokenizes, the records
    of the data lines that tokenize and two console lines for each of the
    others. *)
Lemma parseCSV_spec csvText filename :
  parseCSV csvText filename
  = match nonEmptyLines csvText with
    | [] => (Return [], [WarnEmpty filename])
    | header_line :: data_lines =>
        match parseCSVLine header_line 1 with
        | Throw err => (Throw err, [])
        | Return headers =>
            (Return (validRows headers data_lines 1), rowErrors filename data_lines 1)
        end
    end.
Proof.
  unfold parseCSV. destruct (nonEmptyLines csvText) as [|header_line data_lines]; [done|].
  destruct (parseCSVLine header_line 1) as [headers|err]; [|done].
  by rewrite parseRows_spec.
Qed.





(** C6, on the code: the record is a plain object, and a column named
    [__proto__] gives it no key. The table of the example has two lines
    that count, none of which makes the tokenizer throw, and the header
    columns [__proto__] and [a]; the one record [parseCSV] returns has the
    key [a] alone, so its keys are not the column names of the header. *)
Theorem parseCSV_proto_column_lost filename :
  nonEmptyLines Examples.table_proto_header = ["__proto__,a"; "x,y"]
  ∧ parseCSVLine "__proto__,a" 1 = Return ["__proto__"; "a"]
  ∧ parseCSVLine "x,y" 2 = Return ["x"; "y"]
  ∧ parseCSV Examples.table_proto_header filename
    = (Return [ {[ "a" := "y" ]} ], [])
  ∧ ∀ record : row,
      In record [ {[ "a" := "y" ]} ] →
      dom record = ({[ "a" ]} : gset string)
      ∧ dom record ≠ (list_to_set ["__proto__"; "a"] : gset string).
Proof.
  split; [reflexivity|]. split; [reflexivity|]. split; [reflexivity|].
  split; [reflexivity|].
  intros record [<-|[]]. rewrite dom_singleton_L. split; [done|].
  intros Heq. assert ("__proto__" ∈ ({[ "a" ]} : gset string)) as Hin.
  { rewrite Heq. set_solver. }
  by apply elem_of_singleton in Hin.
Qed.

(** A data line that does not tokenize is left out and reported; the lines
    around it are read as if it were not there. *)
Lemma parseCSV_skips_data_line csvText filename header_line before line after headers :
  nonEmptyLines csvText = header_line :: before ++ line :: after →
  parseCSVLine header_line 1 = Return headers →
  inQuotes (scanLine line scanner_start) = true →
  parseCSV csvText filename
  = (Return (validRows headers before 1
             ++ validRows headers after (2 + length before)),
     rowErrors filename before 1
     ++ ErrorParsing filename (2 + length before)
          (UnterminatedQuote (2 + length before) (sliceFrom0 80 line))
        :: SkippingRow
        :: rowErrors filename after (2 + length before)).
Proof.
  intros Hlines Hheader Hline. rewrite parseCSV_spec, Hlines, Hheader.
  assert (∀ i, validRows headers (before ++ line :: after) i
               = validRows headers before i
                 ++ validRows headers after (S i + length before)
             ∧ rowErrors filename (before ++ line :: after) i
               = rowErrors filename before i
                 ++ ErrorParsing filename (S i + length before)
                      (UnterminatedQuote (S i + length before) (sliceFrom0 80 line))
                    :: SkippingRow
                    :: rowErrors filename after (S i + length before)) as Hsplit.
  { clear Hlines. induction before as [|l before IH]; intros i.
    - cbn [app validRows rowErrors length].
      rewrite (parseCSVLine_unterminated line (i + 1) Hline).
      rewrite Nat.add_0_r. by replace (i + 1) with (S i) by lia.
    - cbn [app validRows rowErrors length]. destruct (IH (S i)) as [IHv IHe].
      replace (S i + S (length before)) with (S (S i) + length before) by lia.
      destruct (parseCSVLine l (i + 1)); by rewrite IHv, IHe. }
  destruct (Hsplit 1) as [-> ->]. done.
Qed.

(** C5, on the code: the header line is tokenized outside the [try] block.
    On a table whose header line ends with quote-mode open the tokenizer
    throws for line 1 with the preview of that line, [parseCSV] throws the
    same error instead of returning the data line that is in order, and the
    run ends with exit code 1 and no document written. *)
Theorem parseCSV_unterminated_header_throws :
  parseCSVLine Examples.bad_header_line 1
  = Throw (UnterminatedQuote 1 Examples.bad_header_line)
  ∧ parseCSVLine "a,b" 2 = Return ["a"; "b"]
  ∧ (∀ filename,
       parseCSV Examples.table_bad_header filename
       = (Throw (UnterminatedQuote 1 Examples.bad_header_line), []))
  ∧ (∀ (number : NumberBuiltin) (device : WriteDevice),
       main Examples.world_bad_header
       = ({| csvFiles := csvFiles Examples.world_bad_header;
             jsonFiles := ∅;
             console :=
               [ErrorBuilding (UnterminatedQuote 1 Examples.bad_header_line)] |},
          1)).
Proof.
  split; [reflexivity|]. split; [reflexivity|]. split; [reflexivity|].
  intros number device. reflexivity.
Qed.

(** ** Coercions *)

Lemma toBoolean_string s :
  toBoolean (JStr s) = true
  ↔ toLowerCase (trim s) ∈ ["true"; "1"; "yes"].
Proof.
  cbn [toBoolean]. rewrite !orb_true_iff, !String.eqb_eq, !elem_of_cons.
  split; [intros [[?|?]|?]; auto|].
  intros [?|[?|[?|Hnil]]]; auto. by apply elem_of_nil in Hnil.
Qed.

(** C9, as the code has it. [toBoolean] is a total function to the
    booleans. A string gives true exactly when its trimmed lower-case form
    is one of true, 1, yes (so TRUE, true, 1 and yes give true and the empty
    string, false, no and 2 give false); a boolean is returned as it is;
    [undefined] (a missing field), [null] and numbers give false. *)
Theorem toBoolean_spec :
  (∀ s, toBoolean (JStr s) = true
        ↔ toLowerCase (trim s) ∈ ["true"; "1"; "yes"])
  ∧ Forall (λ s, toBoolean (JStr s) = true) ["TRUE"; "true"; "1"; "yes"]
  ∧ Forall (λ s, toBoolean (JStr s) = false) [EmptyString; "false"; "no"; "2"]
  ∧ (∀ b, toBoolean (JBool b) = b)
  ∧ toBoolean JUndefined = false
  ∧ toBoolean (ofField None) = false
  ∧ toBoolean JNull = false
  ∧ (∀ n, toBoolean (JNum n) = false).
Proof.
  split; [exact toBoolean_string|].
  split; [by repeat constructor|].
  split; [by repeat constructor|].
  by repeat split.
Qed.

(** C9, as the claim has it, fails on the boolean [true]: it is not a string,
    and the coercion does not give false. *)
Lemma toBoolean_true_not_false :
  ¬ (∀ v : jsval,
       (∀ s, v = JStr s → toLowerCase (trim s) ∉ ["true"; "1"; "yes"]) →
       toBoolean v = false).
Proof.
  intros Hclaim. specialize (Hclaim (JBool true)).
  cbn [toBoolean] in Hclaim. discriminate Hclaim. intros s Hs. discriminate Hs.
Qed.

Section NumberFacts.
Context `{NumberBuiltin}.

(** A sort key that is missing, empty or not a finite number counts as 0. *)
Lemma toNumber_fallback (value : option string) :
  value = None ∨ value = Some EmptyString
  ∨ (∃ s, value = Some s ∧ Number s = None) →
  toNumber (ofField value) 0 = 0%Q.
Proof.
  intros [->|[->|(s & -> & Hs)]]; [done|done|].
  cbn [ofField toNumber]. destruct s; [done|]. by rewrite Hs.
Qed.

Lemma toNumber_number s n :
  s ≠ EmptyString → Number s = Some n → toNumber (JStr s) 0 = n.
Proof.
  intros Hs Hn. cbn [toNumber]. destruct s; [done|]. by rewrite Hn.
Qed.

End NumberFacts.

(** ** The Map of groups *)

Section MapFacts.
Context {V : Type}.
Implicit Types (m : list (string * V)) (k : string) (v : V).

Lemma get_set_eq m k v : JsMap.get (JsMap.set m k v) k = Some v.
Proof.
  induction m as [|[k' v'] m IH]; simpl.
  - by rewrite String.eqb_refl.
  - destruct (String.eqb k' k) eqn:Hk; simpl; by rewrite Hk.
Qed.

Lemma get_set_ne m k k' v : k ≠ k' → JsMap.get (JsMap.set m k v) k' = JsMap.get m k'.
Proof.
  intros Hne. induction m as [|[k0 v0] m IH]; simpl.
  - by apply String.eqb_neq in Hne as ->.
  - destruct (String.eqb k0 k) eqn:Hk; simpl.
    + apply String.eqb_eq in Hk as ->. by apply String.eqb_neq in Hne as ->.
    + by rewrite IH.
Qed.


Lemma In_get_is_Some m k v : In (k, v) m → is_Some (JsMap.get m k).
Proof.
  induction m as [|[k' v'] m IH]; simpl; [done|].
  intros [[= -> ->]|Hin].
  - by rewrite String.eqb_refl.
  - destruct (String.eqb k' k); [done|]. by apply IH.
Qed.

End MapFacts.

(** ** Grouping the case-study rows *)

Section Grouping.
Context `{NumberBuiltin}.

Lemma groupStep_empty_key acc cs :
  caseStudyKey cs = EmptyString → groupStep acc cs = acc.
Proof. unfold groupStep. by intros ->. Qed.

Lemma groupStep_get acc cs k :
  JsMap.get (groupStep acc cs) k
  = if nonEmpty (caseStudyKey cs) && String.eqb (caseStudyKey cs) k
    then Some (default [] (JsMap.get acc k) ++ [caseStudyEntry cs])
    else JsMap.get acc k.
Proof.
  unfold groupStep. destruct (nonEmpty (caseStudyKey cs)); simpl; [|done].
  destruct (String.eqb (caseStudyKey cs) k) eqn:Hk.
  - apply String.eqb_eq in Hk as <-. by rewrite get_set_eq.
  - apply String.eqb_neq in Hk. by rewrite get_set_ne.
Qed.

Lemma fold_groupStep_get sections acc k :
  JsMap.get (fold_left groupStep sections acc) k
  = if nonEmpty k
    then match JsMap.get acc k, groupOf sections k with
         | None, [] => None
         | g, g' => Some (default [] g ++ g')
         end
    else JsMap.get acc k.
Proof.
  revert acc. induction sections as [|cs sections IH]; intros acc.
  - unfold groupOf. simpl. destruct (nonEmpty k); [|done].
    destruct (JsMap.get acc k); simpl; [by rewrite app_nil_r|done].
  - cbn [fold_left]. rewrite IH, groupStep_get. unfold groupOf.
    cbn [List.filter]. destruct (String.eqb (caseStudyKey cs) k) eqn:Hk.
    + apply String.eqb_eq in Hk as ->. rewrite andb_true_r.
      destruct (nonEmpty k); [|done].
      destruct (JsMap.get acc k); simpl; by rewrite <- ?app_assoc.
    + by rewrite andb_false_r.
Qed.

(** What the Map holds under a key: the group of the key, when the key is
    not empty and some row has it. *)
Lemma caseStudyById_get sections k :
  JsMap.get (caseStudyById sections) k
  = if nonEmpty k
    then match groupOf sections k with [] => None | g => Some g end
    else None.
Proof. unfold caseStudyById. by rewrite fold_groupStep_get. Qed.

Lemma caseStudyById_get_Some sections k g :
  JsMap.get (caseStudyById sections) k = Some g →
  nonEmpty k = true ∧ g = groupOf sections k ∧ g ≠ [].
Proof.
  rewrite caseStudyById_get. destruct (nonEmpty k); [|done].
  destruct (groupOf sections k) eqn:Hg; [done|]. by intros [= <-].
Qed.

Lemma groupOf_provenance sections k e :
  In e (groupOf sections k) →
  ∃ cs, In cs sections ∧ caseStudyKey cs = k ∧ e = caseStudyEntry cs.
Proof.
  unfold groupOf. intros (cs & <- & [Hin Hk]%filter_In)%in_map_iff.
  apply String.eqb_eq in Hk. by exists cs.
Qed.

End Grouping.

(** ** The Map while [projects.map] sorts its arrays in place *)

Section InPlaceSort.
Context `{NumberBuiltin}.

Lemma byOrder_key (a b : Entry.t) : byOrder a b = (Entry.order a - Entry.order b)%Q.
Proof. done. Qed.

Lemma byDisplayOrder_key (a b : Project.t) :
  byDisplayOrder a b = (Project.displayOrder a - Project.displayOrder b)%Q.
Proof. done. Qed.

Lemma sameUpToSort_refl m : sameUpToSort m m.
Proof. unfold sameUpToSort. induction m; by constructor. Qed.

Lemma sameUpToSort_get m m0 k :
  sameUpToSort m m0 →
  match JsMap.get m k, JsMap.get m0 k with
  | Some g, Some g0 => jsSort byOrder g = jsSort byOrder g0
  | None, None => True
  | _, _ => False
  end.
Proof.
  induction 1 as [|[k1 g1] [k2 g2] m m0 [Hk Hg] Hrest IH]; simpl in *; [done|].
  subst k2. by destruct (String.eqb k1 k).
Qed.

Lemma sameUpToSort_set m m0 k g :
  sameUpToSort m m0 →
  JsMap.get m k = Some g →
  sameUpToSort (JsMap.set m k (jsSort byOrder g)) m0.
Proof.
  induction 1 as [|[k1 g1] [k2 g2] m m0 [Hk Hg] Hrest IH]; simpl in *; [done|].
  subst k2. destruct (String.eqb k1 k).
  - intros [= ->]. constructor; [|done]. split; [done|]. simpl.
    by rewrite (jsSort_idempotent Entry.order byOrder byOrder_key).
  - intros Hget. constructor; [done|]. by apply IH.
Qed.

Lemma buildProject_sameUpToSort projectDetails byId m0 project :
  sameUpToSort byId m0 →
  sameUpToSort (buildProject projectDetails byId project).1 m0
  ∧ (buildProject projectDetails byId project).2
    = projectOf projectDetails m0 project.
Proof.
  intros Hsame. unfold projectOf, buildProject.
  pose proof (sameUpToSort_get byId m0 (projectId project) Hsame) as Hget.
  destruct (JsMap.get byId (projectId project)) as [g|] eqn:Hg,
           (JsMap.get m0 (projectId project)) as [g0|] eqn:Hg0;
    try done; simpl.
  - split; [by apply sameUpToSort_set|]. by rewrite Hget.
Qed.

Lemma mapProjects_spec projectDetails byId m0 projects :
  sameUpToSort byId m0 →
  sameUpToSort (mapProjects projectDetails byId projects).1 m0
  ∧ (mapProjects projectDetails byId projects).2
    = List.map (projectOf projectDetails m0) projects.
Proof.
  revert byId. induction projects as [|project projects IH]; intros byId Hsame; [done|].
  cbn [mapProjects List.map].
  destruct (buildProject_sameUpToSort projectDetails byId m0 project Hsame)
    as [Hsame1 Hp].
  destruct (buildProject projectDetails byId project) as [byId1 p]. simpl in *.
  destruct (IH byId1 Hsame1) as [Hsame2 Hps].
  destruct (mapProjects projectDetails byId1 projects) as [byId2 ps]. simpl in *.
  split; [done|]. by rewrite Hp, Hps.
Qed.

Lemma standaloneCaseStudies_sameUpToSort m m0 ps :
  sameUpToSort m m0 → standaloneCaseStudies m ps = standaloneCaseStudies m0 ps.
Proof.
  unfold standaloneCaseStudies.
  induction 1 as [|[k1 g1] [k2 g2] m m0 [Hk Hg] Hrest IH]; simpl in *; [done|].
  subst k2. destruct (negb _); simpl; by rewrite ?Hg, IH.
Qed.

(** The in-place sorting leaves no trace in the result: every project is
    built as from the Map of the [reduce], and so is [caseStudyOnly]. *)
Lemma normalizeProjects_spec projects projectDetails caseStudySections :
  normalizeProjects projects projectDetails caseStudySections
  = let byId := caseStudyById caseStudySections in
    let projectsData :=
      jsSort byDisplayOrder (List.map (projectOf projectDetails byId) projects) in
    (projectsData, standaloneCaseStudies byId projectsData).
Proof.
  unfold normalizeProjects.
  destruct (mapProjects_spec projectDetails (caseStudyById caseStudySections)
              (caseStudyById caseStudySections) projects
              (sameUpToSort_refl _)) as [Hsame Hps].
  destruct (mapProjects _ _ projects) as [byId' built]. simpl in *.
  by rewrite Hps, (standaloneCaseStudies_sameUpToSort _ _ _ Hsame).
Qed.

Lemma projectOf_id projectDetails byId project :
  Project.id (projectOf projectDetails byId project) = projectId project.
Proof.
  unfold projectOf, buildProject.
  by destruct (JsMap.get byId (projectId project)).
Qed.


Lemma projectOf_caseStudy projectDetails byId project :
  Project.caseStudy (projectOf projectDetails byId project)
  = List.map stripOrder
      (jsSort byOrder (default [] (JsMap.get byId (projectId project)))).
Proof.
  unfold projectOf, buildProject.
  by destruct (JsMap.get byId (projectId project)).
Qed.

Lemma projectOf_details projectDetails byId project :
  Project.details (projectOf projectDetails byId project)
  = List.map projectDetail
      (jsSort (λ a b, (detailOrder a - detailOrder b)%Q)
         (List.filter
            (λ d, bool_decide (d !! "project_id" = Some (projectId project)))
            projectDetails)).
Proof.
  unfold projectOf, buildProject.
  by destruct (JsMap.get byId (projectId project)).
Qed.

Lemma projectsData_spec projects projectDetails caseStudySections :
  projectsData projects projectDetails caseStudySections
  = jsSort byDisplayOrder
      (List.map (projectOf projectDetails (caseStudyById caseStudySections)) projects).
Proof. unfold projectsData. by rewrite normalizeProjects_spec. Qed.

Lemma caseStudyOnly_spec projects projectDetails caseStudySections :
  caseStudyOnly projects projectDetails caseStudySections
  = standaloneCaseStudies (caseStudyById caseStudySections)
      (projectsData projects projectDetails caseStudySections).
Proof.
  unfold caseStudyOnly. by rewrite projectsData_spec, normalizeProjects_spec.
Qed.

Lemma In_projectsData p projects projectDetails caseStudySections :
  In p (projectsData projects projectDetails caseStudySections)
  ↔ ∃ project, In project projects
      ∧ p = projectOf projectDetails (caseStudyById caseStudySections) project.
Proof.
  rewrite projectsData_spec, <- !list_elem_of_In.
  rewrite (jsSort_elem_of byDisplayOrder).
  rewrite list_elem_of_In, in_map_iff.
  split; intros (project & ? & ?); by exists project.
Qed.

Lemma existsb_project_id ps k :
  existsb (λ p, String.eqb (Project.id p) k) ps = true
  ↔ ∃ p, In p ps ∧ Project.id p = k.
Proof.
  rewrite existsb_exists. split; intros (p & Hin & Hp); exists p.
  - by apply String.eqb_eq in Hp.
  - split; [done|]. by apply String.eqb_eq.
Qed.

End InPlaceSort.

(** ** Orphan groups and attached groups *)

Section Orphans.
Context `{NumberBuiltin}.


(** *** What the engine reads from the columns *)

Lemma projectId_field (project : row) :
  projectId project = trim (fieldOr project "id").
Proof.
  unfold projectId, fieldOr, orString.
  by destruct (project !! "id") as [[|c s]|].
Qed.

Lemma caseStudyKey_field (cs : row) :
  caseStudyKey cs = trim (firstFilled cs "project_id" "projectId").
Proof.
  unfold caseStudyKey, firstFilled, fieldOr, orString, orElse.
  destruct (cs !! "project_id") as [[|c s]|]; simpl;
    by destruct (cs !! "projectId") as [[|c' s']|].
Qed.

Lemma groupOf_rowsOfKey caseStudySections key :
  groupOf caseStudySections key
  = List.map caseStudyEntry (rowsOfKey caseStudySections key).
Proof.
  unfold groupOf, rowsOfKey. f_equal. apply List.filter_ext. intros cs.
  by rewrite caseStudyKey_field.
Qed.

Lemma sectionTitle_field (r : row) :
  orNull (orElse (r !! "section_title") (r !! "sectionTitle"))
  = orNullString (firstFilled r "section_title" "sectionTitle").
Proof.
  unfold orNull, orElse, firstFilled, fieldOr, orNullString.
  destruct (r !! "section_title") as [[|c s]|]; simpl;
    by destruct (r !! "sectionTitle") as [[|c' s']|].
Qed.

Lemma stripOrder_caseStudyEntry (cs : row) :
  stripOrder (caseStudyEntry cs) = sectionOfRow cs.
Proof.
  unfold stripOrder, caseStudyEntry, sectionOfRow. cbn. by rewrite sectionTitle_field.
Qed.

Lemma orString_firstFilled (r : row) first second :
  orString (orElse (r !! first) (r !! second)) EmptyString
  = firstFilled r first second.
Proof.
  unfold orString, orElse, firstFilled, fieldOr.
  destruct (r !! first) as [[|c s]|]; simpl;
    by destruct (r !! second) as [[|c' s']|].
Qed.

Lemma projectDetail_field (d : row) : projectDetail d = detailOfRow d.
Proof.
  unfold projectDetail, detailOfRow. rewrite !orString_firstFilled.
  f_equal. unfold orString, fieldOr. by destruct (d !! "password") as [[|c s]|].
Qed.

Lemma focusAreaSection_field (r : row) : focusAreaSection r = sectionOfRow r.
Proof. unfold focusAreaSection, sectionOfRow. by rewrite sectionTitle_field. Qed.

Lemma toNumber_readsNumber snake camel :
  readsNumber snake camel
    (λ r : row, toNumber (ofField (nullish (r !! snake) (r !! camel))) 0).
Proof.
  intros r value.
  assert (nullish (r !! snake) (r !! camel) = value) as ->.
  { unfold value, nullish. by destruct (r !! snake). }
  split.
  - apply toNumber_fallback.
  - intros s n -> Hs Hn. by apply toNumber_number.
Qed.

Lemma displayOrderOf_reads : readsNumber "display_order" "displayOrder" displayOrderOf.
Proof. apply toNumber_readsNumber. Qed.

Lemma detailOrder_reads : readsNumber "detail_order" "detailOrder" detailOrder.
Proof. apply toNumber_readsNumber. Qed.

Lemma sectionOrder_reads : readsNumber "section_order" "sectionOrder" sectionOrder.
Proof. apply toNumber_readsNumber. Qed.

Lemma entryOrder_reads :
  readsNumber "section_order" "sectionOrder" (λ cs, Entry.order (caseStudyEntry cs)).
Proof. apply toNumber_readsNumber. Qed.



Lemma caseStudyById_skip before cs after :
  caseStudyKey cs = EmptyString →
  caseStudyById (before ++ cs :: after) = caseStudyById (before ++ after).
Proof.
  intros Hkey. unfold caseStudyById. rewrite !fold_left_app. cbn [fold_left].
  by rewrite groupStep_empty_key.
Qed.

(** C10. A case-study row whose foreign key is empty after trimming (or
    missing, which reads as empty) is dropped by the grouping: the Map, the
    project list and the orphan collection are what they are without the
    row. *)
Theorem caseStudy_row_without_key_discarded
    (projects projectDetails before after : list row) (cs : row) :
  caseStudyKey cs = EmptyString →
  caseStudyById (before ++ cs :: after) = caseStudyById (before ++ after)
  ∧ projectsData projects projectDetails (before ++ cs :: after)
    = projectsData projects projectDetails (before ++ after)
  ∧ caseStudyOnly projects projectDetails (before ++ cs :: after)
    = caseStudyOnly projects projectDetails (before ++ after)
  ∧ JsMap.get (caseStudyById (before ++ cs :: after)) EmptyString = None.
Proof.
  intros Hkey. pose proof (caseStudyById_skip before cs after Hkey) as Hskip.
  split; [done|]. split; [|split].
  - by rewrite !projectsData_spec, Hskip.
  - by rewrite !caseStudyOnly_spec, !projectsData_spec, Hskip.
  - by rewrite caseStudyById_get.
Qed.

(** A row without either spelling of the column, or with both empty, has
    the empty key. *)
Lemma caseStudyKey_missing (cs : row) :
  (cs !! "project_id" = None ∨ cs !! "project_id" = Some EmptyString) →
  (cs !! "projectId" = None ∨ cs !! "projectId" = Some EmptyString) →
  caseStudyKey cs = EmptyString.
Proof. unfold caseStudyKey. by intros [-> | ->] [-> | ->]. Qed.

End Orphans.


(** A row with an empty [project_id] between two rows that have one. *)
Lemma caseStudy_row_without_key_discarded_witness :
  @caseStudyById Examples.decimalNumber
    ([Examples.section_snake] ++ Examples.section_keyless :: [Examples.section_solo])
  = @caseStudyById Examples.decimalNumber
      ([Examples.section_snake] ++ [Examples.section_solo]).
Proof.
  exact (proj1 (@caseStudy_row_without_key_discarded Examples.decimalNumber
                  [Examples.project_p1] [] [Examples.section_snake]
                  [Examples.section_solo] Examples.section_keyless eq_refl)).
Defined.

(** ** Order of the documents *)

Lemma jsSort_stablySorted {A : Type} (key : A → Q) (compare : A → A → Q) l :
  (∀ a b, compare a b = (key a - key b)%Q) →
  stablySorted key l (jsSort compare l).
Proof.
  intros Hkey. split; [apply jsSort_perm|].
  split; [by apply jsSort_ascending|]. intros q. by apply jsSort_stable.
Qed.

(** Sorting commutes with a map that the comparator factors through. *)
Lemma jsSort_map {A B : Type} (f : A → B)
    (compare : A → A → Q) (compare' : B → B → Q) l :
  (∀ a b, compare a b = compare' (f a) (f b)) →
  List.map f (jsSort compare l) = jsSort compare' (List.map f l).
Proof.
  intros Hf. induction l as [|x l IH]; [done|].
  cbn [jsSort List.map]. rewrite <- IH. generalize (jsSort compare l) as sorted.
  induction sorted as [|y sorted IHs]; [done|].
  cbn [sortInsert List.map]. rewrite <- Hf.
  destruct (Qle_bool (compare x y) 0); [done|]. cbn [List.map]. by rewrite IHs.
Qed.

(** Sorting by a numeric key is sorting the elements paired with their
    keys. *)
Lemma jsSort_keyed {A : Type} (key : A → Q) (compare : A → A → Q) l :
  (∀ a b, compare a b = (key a - key b)%Q) →
  jsSort compare l
  = List.map fst
      (jsSort (λ x y : A * Q, (x.2 - y.2)%Q) (List.map (λ a, (a, key a)) l)).
Proof.
  intros Hkey.
  rewrite <- (jsSort_map (λ a, (a, key a)) compare (λ x y : A * Q, (x.2 - y.2)%Q))
    by done.
  rewrite List.map_map. cbn [fst]. by rewrite List.map_id.
Qed.

Section ProjectOrder.
Context `{NumberBuiltin}.



End ProjectOrder.


(** ** The resume document *)

Section ResumeFacts.
Context `{NumberBuiltin}.

(** C8. The header of the resume document is the first row of the header
    table as it is, and the empty mapping when the table has no row;
    [resumeData] is a total function, without an error. Experience,
    education and skills are each the rows of their own table, sorted
    ascending by the number of their display order (rows of one number in
    table order) and then renamed into their shape. The number is read
    from the column [display_order], or [displayOrder] when the row has no
    [display_order]: 0 when the field is missing, empty or not a finite
    number. Tables of two header rows, of three experience rows with the
    orders 2, 1 and empty, and of two education and two skill rows out of
    order give the first header row and the rows in the order of their
    numbers, for any [Number] that reads the strings 2 and 1 as the numbers
    2 and 1. *)
Theorem resumeData_header_and_order
    (resumeHeader resumeExperience resumeEducation resumeSkills : list row) :
  let resume :=
    resumeData resumeHeader resumeExperience resumeEducation resumeSkills in
  Resume.header resume = default ∅ (head resumeHeader)
  ∧ (resumeHeader = [] → Resume.header resume = ∅)
  ∧ (∃ sorted, stablySorted displayOrderOf resumeExperience sorted
       ∧ Resume.experience resume = List.map experienceEntry sorted)
  ∧ (∃ sorted, stablySorted displayOrderOf resumeEducation sorted
       ∧ Resume.education resume = List.map educationEntry sorted)
  ∧ (∃ sorted, stablySorted displayOrderOf resumeSkills sorted
       ∧ Resume.skills resume = List.map skillEntry sorted)
  ∧ readsNumber "display_order" "displayOrder" displayOrderOf
  ∧ (Number "2" = Some 2%Q → Number "1" = Some 1%Q →
     resumeData [Examples.resume_head; Examples.resume_head2]
       [Examples.exp_a; Examples.exp_b; Examples.exp_c]
       [Examples.edu_a; Examples.edu_b]
       [Examples.skill_a; Examples.skill_b]
     = {| Resume.header := {[ "name" := "Ada"; "title" := "Engineer" ]};
          Resume.experience :=
            [ {| Experience.company := Some "C"; Experience.location := None;
                 Experience.startDate := None; Experience.endDate := None;
                 Experience.role := None; Experience.description := None |};
              {| Experience.company := Some "B"; Experience.location := None;
                 Experience.startDate := None; Experience.endDate := None;
                 Experience.role := Some "r"; Experience.description := None |};
              {| Experience.company := Some "A"; Experience.location := None;
                 Experience.startDate := Some "2019"; Experience.endDate := None;
                 Experience.role := None; Experience.description := None |} ];
          Resume.education :=
            [ {| Education.school := Some "S2"; Education.location := None;
                 Education.startDate := None; Education.endDate := Some "2001";
                 Education.degree := None; Education.details := None |};
              {| Education.school := Some "S1"; Education.location := None;
                 Education.startDate := None; Education.endDate := None;
                 Education.degree := None; Education.details := None |} ];
          Resume.skills :=
            [ {| Skill.category := Some "Y"; Skill.items := None |};
              {| Skill.category := Some "X"; Skill.items := Some "i, j" |} ] |}).
Proof.
  intros resume. split; [by destruct resumeHeader|].
  split; [by intros ->|].
  split.
  { exists (jsSort byRowDisplayOrder resumeExperience).
    split; [by apply jsSort_stablySorted|done]. }
  split.
  { exists (jsSort byRowDisplayOrder resumeEducation).
    split; [by apply jsSort_stablySorted|done]. }
  split.
  { exists (jsSort byRowDisplayOrder resumeSkills).
    split; [by apply jsSort_stablySorted|done]. }
  split; [apply displayOrderOf_reads|].
  intros H2 H1. unfold resumeData.
  rewrite !(jsSort_keyed displayOrderOf byRowDisplayOrder) by done.
  cbn [List.map].
  assert (displayOrderOf Examples.exp_a = 2%Q) as ->
    by (by apply (toNumber_number "2")).
  assert (displayOrderOf Examples.exp_b = 1%Q) as ->
    by (by apply (toNumber_number "1")).
  assert (displayOrderOf Examples.exp_c = 0%Q) as -> by done.
  assert (displayOrderOf Examples.edu_a = 1%Q) as ->
    by (by apply (toNumber_number "1")).
  assert (displayOrderOf Examples.edu_b = 0%Q) as -> by done.
  assert (displayOrderOf Examples.skill_a = 2%Q) as ->
    by (by apply (toNumber_number "2")).
  assert (displayOrderOf Examples.skill_b = 1%Q) as ->
    by (by apply (toNumber_number "1")).
  reflexivity.
Qed.

End ResumeFacts.

(** With the decimal [Number] of the examples: a header table without
    rows, and the three sequences of tables out of order. *)
Lemma resumeData_header_and_order_witness :
  Resume.header (@resumeData Examples.decimalNumber [] [] [] []) = ∅
  ∧ List.map Experience.company
      (Resume.experience
         (@resumeData Examples.decimalNumber
            [Examples.resume_head; Examples.resume_head2]
            [Examples.exp_a; Examples.exp_b; Examples.exp_c]
            [Examples.edu_a; Examples.edu_b]
            [Examples.skill_a; Examples.skill_b]))
    = [Some "C"; Some "B"; Some "A"]
  ∧ List.map Education.school
      (Resume.education
         (@resumeData Examples.decimalNumber
            [Examples.resume_head; Examples.resume_head2]
            [Examples.exp_a; Examples.exp_b; Examples.exp_c]
            [Examples.edu_a; Examples.edu_b]
            [Examples.skill_a; Examples.skill_b]))
    = [Some "S2"; Some "S1"]
  ∧ List.map Skill.category
      (Resume.skills
         (@resumeData Examples.decimalNumber
            [Examples.resume_head; Examples.resume_head2]
            [Examples.exp_a; Examples.exp_b; Examples.exp_c]
            [Examples.edu_a; Examples.edu_b]
            [Examples.skill_a; Examples.skill_b]))
    = [Some "Y"; Some "X"].
Proof.
  destruct (@resumeData_header_and_order Examples.decimalNumber [] [] [] [])
    as (_ & Hempty & _ & _ & _ & _ & Hexample).
  split; [by apply Hempty|].
  rewrite (Hexample eq_refl eq_refl). by repeat split.
Defined.

(** ** Spellings of the foreign-key column *)

(** C2, on the code. A case-study row joins its project under either
    spelling of the column ([project_id], [projectId]). A project-detail
    row is compared by [project_id] alone and a focus-area section row by
    [focus_area_id] alone: under the camelCase spelling the row joins
    nothing. *)
Theorem foreign_key_spellings (number : NumberBuiltin) :
  caseStudyKey Examples.section_snake = "p1"
  ∧ caseStudyKey Examples.section_camel = "p1"
  ∧ List.map (λ p, length (Project.caseStudy p))
      (projectsData [Examples.project_p1] [] [Examples.section_camel]) = [1]
  ∧ List.map (λ p, length (Project.details p))
      (projectsData [Examples.project_p1] [Examples.detail_snake] []) = [1]
  ∧ List.map Project.details
      (projectsData [Examples.project_p1] [Examples.detail_camel] []) = [[]]
  ∧ List.map (λ fa, length (FocusArea.sections fa))
      (focusAreasData [Examples.focus_f1] [Examples.focus_section_snake]) = [1]
  ∧ List.map FocusArea.sections
      (focusAreasData [Examples.focus_f1] [Examples.focus_section_camel]) = [[]].
Proof. by repeat split. Qed.

(** ** Writing the documents *)

Section Writer.
Context `{NumberBuiltin} `{WriteDevice}.

Lemma buildData_spec w :
  buildData w
  = match readTables w with
    | (Throw e, w1) => (Throw e, w1)
    | (Return t, w1) =>
        match dataDirectory with
        | DirMissing (Some message) => (Throw (FsError message (Some outputDir)), w1)
        | _ =>
            match documentsOf t with
            | [d1; d2; d3; d4] =>
                match writeDocuments d1 d2 d3 d4 w1 with
                | (Return _, w2) => (Return (), logged w2 [BuildComplete])
                | (Throw e, w2) => (Throw e, w2)
                end
            | _ => (Return (), w1)
            end
        end
    end.
Proof.
  unfold buildData, readTables, mbind, M_bind.
  repeat match goal with
         | |- context [readCSV ?f ?w0] =>
             destruct (readCSV f w0) as [[?|?] ?]; try done
         end.
  unfold mret, M_ret, documentsOf, projectsData, caseStudyOnly, ensureOutputDir.
  simpl.
  destruct (normalizeProjects _ _ _) as [ps cs]. simpl.
  destruct dataDirectory as [|[message|]]; [|done|];
    by destruct (writeDocuments _ _ _ _ _) as [[[]|?] ?].
Qed.

Lemma writeFileSync_Written name data w :
  writeAttempt name = Written →
  writeFileSync name data w
  = (Return (),
     {| csvFiles := csvFiles w;
        jsonFiles := <[name := Stringified data]> (jsonFiles w);
        console := console w |}).
Proof. unfold writeFileSync. by intros ->. Qed.


End Writer.

Section WriterSequence.
Context `{NumberBuiltin} `{WriteDevice}.

Lemma writeDocuments_writeAll d1 d2 d3 d4 w :
  writeDocuments d1 d2 d3 d4 w
  = writeAll [("projects.json", d1); ("focus-areas.json", d2);
              ("resume.json", d3); ("case-studies.json", d4)] w.
Proof.
  unfold writeDocuments, writeAll, mbind, M_bind, mret, M_ret.
  repeat match goal with
         | |- context [writeFileSync ?n ?d ?w0] =>
             destruct (writeFileSync n d w0) as [[[]|?] ?]; try done
         end.
Qed.

Lemma writeAll_Written files w :
  Forall (λ f, writeAttempt f.1 = Written) files →
  writeAll files w
  = (Return (),
     {| csvFiles := csvFiles w;
        jsonFiles := written files (jsonFiles w);
        console := console w |}).
Proof.
  intros Hall. revert w. induction Hall as [|[name doc] files Hw Hall IH]; intros w.
  - by destruct w.
  - cbn [writeAll]. unfold mbind, M_bind.
    rewrite (writeFileSync_Written name doc w Hw). by rewrite IH.
Qed.


Lemma written_lookup_other files m name :
  name ∉ List.map fst files → written files m !! name = m !! name.
Proof.
  revert m. induction files as [|[name' doc'] files IH]; intros m Hname; [done|].
  cbn [List.map fst] in Hname. apply not_elem_of_cons in Hname as [Hne Hname].
  unfold written in *. cbn [fold_left]. rewrite IH by done.
  by rewrite lookup_insert_ne.
Qed.

Lemma written_lookup files m name doc :
  NoDup (List.map fst files) → (name, doc) ∈ files →
  written files m !! name = Some (Stringified doc).
Proof.
  revert m. induction files as [|[name' doc'] files IH]; intros m Hnodup Hin.
  - by apply elem_of_nil in Hin.
  - cbn [List.map fst] in Hnodup. apply NoDup_cons in Hnodup as [Hfresh Hnodup].
    unfold written in *. cbn [fold_left].
    apply elem_of_cons in Hin as [[= -> ->]|Hin].
    + fold (written files (<[name' := Stringified doc']> m)).
      rewrite written_lookup_other by done. by rewrite lookup_insert_eq.
    + by apply IH.
Qed.

Lemma readCSV_files filename w :
  csvFiles (readCSV filename w).2 = csvFiles w
  ∧ jsonFiles (readCSV filename w).2 = jsonFiles w.
Proof.
  unfold readCSV. destruct (csvFiles w !! filename) as [[text|message]|]; [|done..].
  by destruct (parseCSV _ _).
Qed.

Lemma readTables_files w :
  csvFiles (readTables w).2 = csvFiles w
  ∧ jsonFiles (readTables w).2 = jsonFiles w.
Proof.
  unfold readTables, mbind, M_bind.
  repeat match goal with
         | |- context [readCSV ?f ?w0] =>
             let Hf := fresh "Hfiles" in
             destruct (readCSV_files f w0) as [Hf ?];
             destruct (readCSV f w0) as [[?|?] ?]; simpl in *;
             [|split; congruence]
         end.
  split; congruence.
Qed.

End WriterSequence.

Section WriteFailure.
Context `{NumberBuiltin} `{WriteDevice}.



Lemma outputNames_inj i j name :
  outputNames !! i = Some name → outputNames !! j = Some name → i = j.
Proof.
  intros Hi Hj.
  destruct i as [|[|[|[|i]]]]; simpl in Hi; [| | | |done]; injection Hi as <-;
    by destruct j as [|[|[|[|j]]]].
Qed.



(** When no write fails the four files hold the four documents and the run
    ends with exit code 0. *)
Lemma main_writes_all w t w1 :
  readTables w = (Return t, w1) →
  directoryReady →
  (∀ name, name ∈ outputNames → writeAttempt name = Written) →
  ∃ w', main w = (w', 0)
    ∧ ∀ i name doc, outputNames !! i = Some name → documentsOf t !! i = Some doc →
        jsonFiles w' !! name = Some (Stringified doc).
Proof.
  intros Hread Hdir Hw.
  destruct (documentsOf t) as [|d1 [|d2 [|d3 [|d4 [|]]]]] eqn:Hdocs; try done.
  unfold main. rewrite buildData_spec, Hread, Hdocs, writeDocuments_writeAll.
  rewrite writeAll_Written.
  2:{ repeat constructor; apply Hw; unfold outputNames; by repeat constructor. }
  destruct (readTables_files w) as [_ Hjson]. rewrite Hread in Hjson.
  cbn [snd] in Hjson. rewrite Hjson.
  destruct dataDirectory as [|[m|]] eqn:Hd; [|by destruct (Hdir m)|];
    (eexists; split; [done|]; cbn [jsonFiles logged fst]).
  all: intros i name doc Hname Hdoc; rewrite <- Hjson.
  all: apply written_lookup;
    [simpl; by apply (bool_decide_unpack _)
    |destruct i as [|[|[|[|i]]]]; simpl in *; try done;
       injection Hname as <-; injection Hdoc as <-; by repeat constructor].
Qed.

End WriteFailure.



(** ** Trimming and lower-casing *)

Section TrimFacts.

Lemma trimStart_startsClean s : startsClean (trimStart s).
Proof.
  induction s as [|c s IH]; simpl; [done|].
  destruct (isWhitespace c) eqn:Hc; [done|]. simpl. exact Hc.
Qed.

Lemma trimStart_clean s : startsClean s → trimStart s = s.
Proof. destruct s as [|c s]; simpl; [done|]. by intros ->. Qed.

Lemma trimEnd_startsClean s : startsClean s → startsClean (trimEnd s).
Proof.
  destruct s as [|c s]; simpl; [done|]. intros Hc.
  destruct (trimEnd s); [by rewrite Hc|done].
Qed.

Lemma trimEnd_idempotent s : trimEnd (trimEnd s) = trimEnd s.
Proof.
  induction s as [|c s IH]; [done|]. cbn [trimEnd].
  destruct (trimEnd s) as [|c' kept] eqn:Hkept.
  - destruct (isWhitespace c) eqn:Hc; [done|]. simpl. by rewrite Hc.
  - cbn [trimEnd]. cbn [trimEnd] in IH.
    destruct (trimEnd kept) as [|c'' kept'] eqn:Hkept'.
    + destruct (isWhitespace c'); [done|]. by injection IH as ->.
    + by injection IH as ->.
Qed.

(** Trimming what is trimmed changes nothing. *)
Lemma trim_idempotent s : trim (trim s) = trim s.
Proof.
  unfold trim.
  rewrite (trimStart_clean (trimEnd (trimStart s))).
  - apply trimEnd_idempotent.
  - apply trimEnd_startsClean, trimStart_startsClean.
Qed.

Lemma trim_empty : trim EmptyString = EmptyString.
Proof. done. Qed.

Lemma isWhitespace_lowerChar c : isWhitespace (lowerChar c) = isWhitespace c.
Proof. by destruct c as [[] [] [] [] [] [] [] []]. Qed.

Lemma lowerChar_idempotent c : lowerChar (lowerChar c) = lowerChar c.
Proof. by destruct c as [[] [] [] [] [] [] [] []]. Qed.

Lemma toLowerCase_idempotent s : toLowerCase (toLowerCase s) = toLowerCase s.
Proof.
  induction s as [|c s IH]; [done|]. simpl. by rewrite lowerChar_idempotent, IH.
Qed.

Lemma trimStart_toLowerCase s : trimStart (toLowerCase s) = toLowerCase (trimStart s).
Proof.
  induction s as [|c s IH]; [done|]. simpl. rewrite isWhitespace_lowerChar.
  by destruct (isWhitespace c).
Qed.

Lemma trimEnd_toLowerCase s : trimEnd (toLowerCase s) = toLowerCase (trimEnd s).
Proof.
  induction s as [|c s IH]; [done|]. cbn [toLowerCase trimEnd]. rewrite IH.
  rewrite isWhitespace_lowerChar.
  destruct (trimEnd s); simpl; [by destruct (isWhitespace c)|done].
Qed.

Lemma trim_toLowerCase s : trim (toLowerCase s) = toLowerCase (trim s).
Proof. unfold trim. by rewrite trimStart_toLowerCase, trimEnd_toLowerCase. Qed.

End TrimFacts.

(** X1. [toBoolean] looks through surrounding whitespace and through letter
    case: trimming or lower-casing a string first does not change what it is
    coerced to. *)
Theorem toBoolean_trim_case_insensitive s :
  toBoolean (JStr (trim s)) = toBoolean (JStr s)
  ∧ toBoolean (JStr (toLowerCase s)) = toBoolean (JStr s).
Proof.
  cbn [toBoolean]. split.
  - by rewrite trim_idempotent.
  - by rewrite trim_toLowerCase, toLowerCase_idempotent.
Qed.

(** ** Tokenizer: quote balance, trimmed fields, round trip *)

Section ScanFacts.

(** Induction that follows [scanLine], which steps over one code unit or
    over two. *)
Lemma string_pair_ind (P : string → Prop) :
  P EmptyString →
  (∀ c, P (String c EmptyString)) →
  (∀ c c' s, P s → P (String c' s) → P (String c (String c' s))) →
  ∀ s, P s.
Proof.
  intros Hnil Hone Htwo s.
  cut (P s ∧ ∀ c, P (String c s)); [tauto|].
  induction s as [|c' s [IHs IHc]]; [by split|].
  split; [apply IHc|]. intros c. by apply Htwo.
Qed.

Lemma scanLine_cons c rest st :
  scanLine (String c rest) st
  = if Ascii.eqb c DQUOTE then
      match rest with
      | String next rest' =>
          if inQuotes st && Ascii.eqb next DQUOTE
          then scanLine rest' (emitChar st DQUOTE)
          else scanLine rest (toggleQuotes st)
      | EmptyString => scanLine rest (toggleQuotes st)
      end
    else if Ascii.eqb c COMMA && negb (inQuotes st)
    then scanLine rest (endField st)
    else scanLine rest (emitChar st c).
Proof. done. Qed.

Lemma scanLine_inQuotes s :
  ∀ st, inQuotes (scanLine s st) = xorb (inQuotes st) (Nat.odd (countQuotes s)).
Proof.
  induction s as [|c|c c' s IHs IHc] using string_pair_ind; intros st.
  - simpl. by rewrite xorb_false_r.
  - simpl. destruct (Ascii.eqb c DQUOTE); simpl.
    + by rewrite xorb_true_r.
    + rewrite xorb_false_r. by destruct (Ascii.eqb c COMMA && negb (inQuotes st)).
  - rewrite scanLine_cons. destruct (Ascii.eqb c DQUOTE) eqn:Hc.
    + destruct (inQuotes st && Ascii.eqb c' DQUOTE) eqn:Hpair.
      * apply andb_true_iff in Hpair as [Hq Hc']. rewrite IHs.
        cbn [countQuotes emitChar inQuotes]. rewrite Hc, Hc'.
        by replace (1 + (1 + countQuotes s)) with (S (S (countQuotes s))) by lia.
      * rewrite IHc. cbn [toggleQuotes inQuotes].
        change (countQuotes (String c (String c' s)))
          with ((if Ascii.eqb c DQUOTE then 1 else 0) + countQuotes (String c' s)).
        rewrite Hc. cbn [Nat.add]. rewrite Nat.odd_succ, <- Nat.negb_odd.
        by destruct (inQuotes st), (Nat.odd (countQuotes (String c' s))).
    + change (countQuotes (String c (String c' s)))
        with ((if Ascii.eqb c DQUOTE then 1 else 0) + countQuotes (String c' s)).
      rewrite Hc. cbn [Nat.add].
      destruct (Ascii.eqb c COMMA && negb (inQuotes st)); by rewrite IHc.
Qed.

Lemma scanLine_result_trimmed s :
  ∀ st, Forall trimmed (result st) → Forall trimmed (result (scanLine s st)).
Proof.
  assert (∀ st, Forall trimmed (result st) → Forall trimmed (result (endField st)))
    as Hend.
  { intros st Hst. cbn [endField result]. apply Forall_app. split; [done|].
    repeat constructor. apply trim_idempotent. }
  induction s as [|c|c c' s IHs IHc] using string_pair_ind; intros st Hst.
  - done.
  - simpl. destruct (Ascii.eqb c DQUOTE); [done|].
    destruct (Ascii.eqb c COMMA && negb (inQuotes st)); [by apply Hend|done].
  - rewrite scanLine_cons. destruct (Ascii.eqb c DQUOTE).
    + destruct (inQuotes st && Ascii.eqb c' DQUOTE); [by apply IHs|by apply IHc].
    + destruct (Ascii.eqb c COMMA && negb (inQuotes st)); apply IHc; [by apply Hend|done].
Qed.

End ScanFacts.

(** X2. The tokenizer throws on a line exactly when the line has an odd number
    of double quotes, and the error then carries the line number it was
    given and the first 80 code units of the line. *)
Theorem parseCSVLine_throws_iff_odd_quotes line lineNumber :
  (Nat.odd (countQuotes line) = true →
   parseCSVLine line lineNumber
   = Throw (UnterminatedQuote lineNumber (sliceFrom0 80 line)))
  ∧ (Nat.odd (countQuotes line) = false →
     ∃ fields, parseCSVLine line lineNumber = Return fields).
Proof.
  unfold parseCSVLine. rewrite scanLine_inQuotes. cbn [scanner_start inQuotes xorb].
  split; intros ->; [done|by eexists].
Qed.

Lemma parseCSVLine_throws_iff_odd_quotes_witness :
  parseCSVLine Examples.bad_header_line 7
  = Throw (UnterminatedQuote 7 Examples.bad_header_line).
Proof.
  exact (proj1 (parseCSVLine_throws_iff_odd_quotes Examples.bad_header_line 7)
           eq_refl).
Defined.

(** X3. What the tokenizer returns is never the empty list, and each field is
    trimmed: trimming it again changes nothing. *)
Theorem parseCSVLine_fields_trimmed line lineNumber fields :
  parseCSVLine line lineNumber = Return fields →
  fields ≠ [] ∧ Forall trimmed fields.
Proof.
  unfold parseCSVLine.
  destruct (inQuotes (scanLine line scanner_start)); [done|]. intros [= <-].
  split; [by destruct (result (scanLine line scanner_start))|].
  apply Forall_app. split.
  - by apply scanLine_result_trimmed.
  - repeat constructor. apply trim_idempotent.
Qed.

Lemma parseCSVLine_fields_trimmed_witness :
  ["a"; "b"] ≠ [] ∧ Forall trimmed ["a"; "b"].
Proof.
  exact (parseCSVLine_fields_trimmed " a , b " 2 ["a"; "b"] eq_refl).
Defined.

Section RoundTrip.

Lemma append_cons c s t : String c s +:+ t = String c (s +:+ t).
Proof. done. Qed.

Lemma append_nil_r s : s +:+ EmptyString = s.
Proof. induction s as [|c s IH]; [done|]. by rewrite append_cons, IH. Qed.

Lemma append_push s c t : push s c +:+ t = s +:+ String c t.
Proof.
  unfold push. induction s as [|c' s IH]; [done|]. by rewrite !append_cons, IH.
Qed.

Lemma scanLine_app_plain text rest st :
  without isDelimiter text = true →
  scanLine (text +:+ rest) st
  = scanLine rest {| result := result st;
                     current := current st +:+ text;
                     inQuotes := inQuotes st |}.
Proof.
  revert st. induction text as [|c text IH]; intros st Hplain.
  - simpl. rewrite append_nil_r. by destruct st.
  - cbn [without] in Hplain. apply andb_true_iff in Hplain as [Hc Hplain].
    unfold isDelimiter in Hc. apply negb_true_iff, orb_false_iff in Hc as [Hq Hcomma].
    change (String c text +:+ rest) with (String c (text +:+ rest)).
    rewrite scanLine_cons, Hq, Hcomma. cbn [andb]. rewrite IH by done.
    cbn [emitChar result current inQuotes]. by rewrite append_push.
Qed.

Lemma scanLine_app_quoted text rest st :
  inQuotes st = true →
  match rest with String c _ => Ascii.eqb c DQUOTE = false | EmptyString => True end →
  scanLine (escapeQuotes text +:+ String DQUOTE rest) st
  = scanLine rest {| result := result st;
                     current := current st +:+ text;
                     inQuotes := false |}.
Proof.
  intros Hq Hrest. revert st Hq. induction text as [|c text IH]; intros st Hq.
  - cbn [escapeQuotes]. change (EmptyString +:+ String DQUOTE rest)
      with (String DQUOTE rest).
    rewrite scanLine_cons. change (Ascii.eqb DQUOTE DQUOTE) with true. cbn iota.
    rewrite append_nil_r.
    assert (scanLine rest (toggleQuotes st)
            = scanLine rest
                {| result := result st; current := current st; inQuotes := false |})
      as Htoggle by (unfold toggleQuotes; by rewrite Hq).
    destruct rest as [|c rest]; [done|]. by rewrite Hrest, andb_false_r.
  - cbn [escapeQuotes]. destruct (Ascii.eqb c DQUOTE) eqn:Hc.
    + apply Ascii.eqb_eq in Hc as ->.
      change (String DQUOTE (String DQUOTE (escapeQuotes text)) +:+ String DQUOTE rest)
        with (String DQUOTE (String DQUOTE (escapeQuotes text +:+ String DQUOTE rest))).
      rewrite scanLine_cons. change (Ascii.eqb DQUOTE DQUOTE) with true. cbn iota.
      rewrite Hq. cbn [andb]. rewrite IH by done.
      cbn [emitChar result current inQuotes]. by rewrite append_push.
    + change (String c (escapeQuotes text) +:+ String DQUOTE rest)
        with (String c (escapeQuotes text +:+ String DQUOTE rest)).
      rewrite scanLine_cons, Hc, Hq, andb_false_r. rewrite IH by done.
      cbn [emitChar result current inQuotes]. by rewrite append_push.
Qed.

Lemma scanLine_app_cell c rest st :
  cellOk c = true →
  inQuotes st = false →
  match rest with String c _ => Ascii.eqb c DQUOTE = false | EmptyString => True end →
  scanLine (encodeCell c +:+ rest) st
  = scanLine rest {| result := result st;
                     current := current st +:+ cellText c;
                     inQuotes := false |}.
Proof.
  intros Hok Hq Hrest. destruct c as [text|text]; cbn [encodeCell cellText].
  - rewrite scanLine_app_plain by done. by rewrite Hq.
  - change (String DQUOTE (escapeQuotes text +:+ String DQUOTE EmptyString) +:+ rest)
      with (String DQUOTE ((escapeQuotes text +:+ String DQUOTE EmptyString) +:+ rest)).
    assert ((escapeQuotes text +:+ String DQUOTE EmptyString) +:+ rest
            = escapeQuotes text +:+ String DQUOTE rest) as ->.
    { generalize (escapeQuotes text). intros s.
      induction s as [|c' s IH]; [done|]. by rewrite !append_cons, IH. }
    rewrite scanLine_cons. change (Ascii.eqb DQUOTE DQUOTE) with true. cbn iota.
    rewrite Hq. cbn [andb].
    assert (scanLine (escapeQuotes text +:+ String DQUOTE rest) (toggleQuotes st)
            = scanLine rest
                {| result := result st; current := current st +:+ text;
                   inQuotes := false |}) as Hbody.
    { rewrite scanLine_app_quoted; [done| |done].
      unfold toggleQuotes. by rewrite Hq. }
    by destruct (escapeQuotes text +:+ String DQUOTE rest).
Qed.

Lemma scanLine_cells cells st :
  cells ≠ [] →
  Forall (λ c, cellOk c = true) cells →
  inQuotes st = false → current st = EmptyString →
  inQuotes (scanLine (joinWith (String COMMA EmptyString) (List.map encodeCell cells)) st)
  = false
  ∧ finishLine (scanLine (joinWith (String COMMA EmptyString)
                            (List.map encodeCell cells)) st)
    = result st ++ List.map (λ c, trim (cellText c)) cells.
Proof.
  intros Hne Hall. revert st.
  induction Hall as [|c cells Hc Hall IH]; [done|]. clear Hne. intros st Hq Hcur.
  destruct cells as [|c2 cells].
  - cbn [List.map joinWith].
    rewrite <- (append_nil_r (encodeCell c)), scanLine_app_cell by done.
    cbn [scanLine]. unfold finishLine. cbn [inQuotes result current].
    by rewrite Hcur.
  - change (joinWith (String COMMA EmptyString) (List.map encodeCell (c :: c2 :: cells)))
      with (encodeCell c
            +:+ String COMMA (joinWith (String COMMA EmptyString)
                                (List.map encodeCell (c2 :: cells)))).
    rewrite scanLine_app_cell by done.
    rewrite scanLine_cons.
    change (Ascii.eqb COMMA DQUOTE) with false.
    change (Ascii.eqb COMMA COMMA) with true. cbn [inQuotes negb andb]. cbn iota.
    destruct (IH ltac:(done) (endField
                {| result := result st; current := current st +:+ cellText c;
                   inQuotes := false |}) eq_refl eq_refl) as [IHq IHf].
    split; [exact IHq|]. rewrite IHf. cbn [endField result current List.map].
    by rewrite Hcur, <- app_assoc.
Qed.

End RoundTrip.

(** X4. Round trip with a CSV writer. Fields written on a line separated by
    commas, each either as it is (when it has no double quote and no comma)
    or between double quotes with its double quotes doubled, are read back
    by the tokenizer as the same fields, trimmed, whatever commas and quotes
    the quoted ones contain. *)
Theorem parseCSVLine_reads_written_cells cells lineNumber :
  cells ≠ [] →
  Forall (λ c, cellOk c = true) cells →
  parseCSVLine (joinWith (String COMMA EmptyString) (List.map encodeCell cells))
    lineNumber
  = Return (List.map (λ c, trim (cellText c)) cells).
Proof.
  intros Hne Hall.
  destruct (scanLine_cells cells scanner_start Hne Hall eq_refl eq_refl) as [Hq Hf].
  unfold parseCSVLine. rewrite Hq. unfold finishLine in Hf. by rewrite Hf.
Qed.

Lemma parseCSVLine_reads_written_cells_witness :
  parseCSVLine
    (joinWith (String COMMA EmptyString)
       (List.map encodeCell
          [Plain "a"; Quoted ("b,c" +:+ String DQUOTE "d"); Plain " e "])) 1
  = Return ["a"; "b,c" +:+ String DQUOTE "d"; "e"].
Proof.
  apply (parseCSVLine_reads_written_cells
           [Plain "a"; Quoted ("b,c" +:+ String DQUOTE "d"); Plain " e "] 1).
  - done.
  - by repeat constructor.
Defined.

(** ** Table reader: line endings and accounting *)

Section LineFacts.

Lemma splitLines_cons c rest :
  splitLines (String c rest)
  = if Ascii.eqb c LF then EmptyString :: splitLines rest
    else
      match rest with
      | String c' rest' =>
          if Ascii.eqb c CR && Ascii.eqb c' LF
          then EmptyString :: splitLines rest'
          else consHead c (splitLines rest)
      | EmptyString => consHead c (splitLines rest)
      end.
Proof. done. Qed.

Lemma splitLines_app_LF line rest :
  without isLineBreak line = true →
  splitLines (line +:+ String LF rest) = line :: splitLines rest.
Proof.
  induction line as [|c line IH]; intros Hline; [done|].
  cbn [without] in Hline. apply andb_true_iff in Hline as [Hc Hline].
  unfold isLineBreak in Hc. apply negb_true_iff, orb_false_iff in Hc as [Hcr Hlf].
  rewrite append_cons, splitLines_cons, Hlf, Hcr. cbn [andb].
  rewrite IH by done. by destruct (line +:+ String LF rest).
Qed.

Lemma splitLines_app_CRLF line rest :
  without isLineBreak line = true →
  splitLines (line +:+ String CR (String LF rest)) = line :: splitLines rest.
Proof.
  induction line as [|c line IH]; intros Hline; [done|].
  cbn [without] in Hline. apply andb_true_iff in Hline as [Hc Hline].
  unfold isLineBreak in Hc. apply negb_true_iff, orb_false_iff in Hc as [Hcr Hlf].
  rewrite append_cons, splitLines_cons, Hlf, Hcr. cbn [andb].
  rewrite IH by done. by destruct (line +:+ String CR (String LF rest)).
Qed.

Lemma splitLines_single line :
  without isLineBreak line = true → splitLines line = [line].
Proof.
  induction line as [|c line IH]; intros Hline; [done|].
  cbn [without] in Hline. apply andb_true_iff in Hline as [Hc Hline].
  unfold isLineBreak in Hc. apply negb_true_iff, orb_false_iff in Hc as [Hcr Hlf].
  rewrite splitLines_cons, Hlf, Hcr. cbn [andb]. rewrite IH by done.
  by destruct line.
Qed.

Lemma splitLines_joinWith sep lines :
  sep = String LF EmptyString ∨ sep = String CR (String LF EmptyString) →
  lines ≠ [] →
  Forall (λ line, without isLineBreak line = true) lines →
  splitLines (joinWith sep lines) = lines.
Proof.
  intros Hsep Hne Hall. induction Hall as [|line lines Hline Hall IH]; [done|].
  clear Hne. destruct lines as [|line2 lines].
  - by apply splitLines_single.
  - change (joinWith sep (line :: line2 :: lines))
      with (line +:+ sep +:+ joinWith sep (line2 :: lines)).
    destruct Hsep as [-> | ->].
    + change (String LF EmptyString +:+ joinWith (String LF EmptyString) (line2 :: lines))
        with (String LF (joinWith (String LF EmptyString) (line2 :: lines))).
      rewrite splitLines_app_LF by done. by rewrite IH.
    + change (String CR (String LF EmptyString)
              +:+ joinWith (String CR (String LF EmptyString)) (line2 :: lines))
        with (String CR (String LF
                (joinWith (String CR (String LF EmptyString)) (line2 :: lines)))).
      rewrite splitLines_app_CRLF by done. by rewrite IH.
Qed.

Lemma nonEmptyLines_joinWith sep lines :
  sep = String LF EmptyString ∨ sep = String CR (String LF EmptyString) →
  Forall (λ line, without isLineBreak line = true) lines →
  nonEmptyLines (joinWith sep lines) = List.filter nonEmpty (List.map trim lines).
Proof.
  intros Hsep Hall. unfold nonEmptyLines. destruct lines as [|line lines]; [done|].
  by rewrite splitLines_joinWith.
Qed.

End LineFacts.

(** X5. Both line endings are read alike, and blank lines do not count: lines
    without line breaks joined by LF or joined by CR LF give the same table,
    read from the lines that are not empty once trimmed. *)
Theorem parseCSV_line_endings lines filename :
  Forall (λ line, without isLineBreak line = true) lines →
  nonEmptyLines (joinWith (String LF EmptyString) lines)
  = List.filter nonEmpty (List.map trim lines)
  ∧ nonEmptyLines (joinWith (String CR (String LF EmptyString)) lines)
    = List.filter nonEmpty (List.map trim lines)
  ∧ parseCSV (joinWith (String CR (String LF EmptyString)) lines) filename
    = parseCSV (joinWith (String LF EmptyString) lines) filename.
Proof.
  intros Hall.
  pose proof (nonEmptyLines_joinWith (String LF EmptyString) lines
                ltac:(by left) Hall) as Hlf.
  pose proof (nonEmptyLines_joinWith (String CR (String LF EmptyString)) lines
                ltac:(by right) Hall) as Hcrlf.
  split; [done|]. split; [done|]. by rewrite !parseCSV_spec, Hlf, Hcrlf.
Qed.

Lemma parseCSV_line_endings_witness :
  parseCSV (joinWith (String CR (String LF EmptyString)) ["id,title"; "  "; "x,y"])
    "projects.csv"
  = parseCSV (joinWith (String LF EmptyString) ["id,title"; "  "; "x,y"])
      "projects.csv".
Proof.
  apply (parseCSV_line_endings ["id,title"; "  "; "x,y"] "projects.csv").
  by repeat constructor.
Defined.

Section Accounting.

Lemma rowErrors_rowFailures filename rest i :
  rowErrors filename rest i = withSkipNotice (rowFailures filename rest i).
Proof.
  revert i. induction rest as [|line rest IH]; intros i; [done|].
  cbn [rowErrors rowFailures]. destruct (parseCSVLine line (i + 1)); [apply IH|].
  unfold withSkipNotice. cbn [flat_map app]. f_equal. f_equal. apply IH.
Qed.

Lemma validRows_rowFailures_length filename headers rest i :
  length (validRows headers rest i) + length (rowFailures filename rest i)
  = length rest.
Proof.
  revert i. induction rest as [|line rest IH]; intros i; [done|].
  cbn [validRows rowFailures]. destruct (parseCSVLine line (i + 1)); simpl;
    specialize (IH (S i)); lia.
Qed.

Lemma validRows_dom headers rest i :
  Forall (λ record : row, dom record = keysOf headers) (validRows headers rest i).
Proof.
  revert i. induction rest as [|line rest IH]; intros i; [constructor|].
  cbn [validRows]. destruct (parseCSVLine line (i + 1)); [|apply IH].
  constructor; [|apply IH]. unfold recordOf.
  by rewrite fillRecord_dom, dom_empty_L, (right_id_L ∅ (∪)).
Qed.

Lemma rowFailures_shape filename rest i :
  Forall (λ entry, ∃ (n : nat) preview,
            entry = ErrorParsing filename n (UnterminatedQuote n preview)
            ∧ (i < n <= i + length rest)%nat)
    (rowFailures filename rest i).
Proof.
  revert i. induction rest as [|line rest IH]; intros i; [constructor|].
  cbn [rowFailures]. unfold parseCSVLine at 1.
  destruct (inQuotes (scanLine line scanner_start)).
  - constructor.
    + eexists _, _. split; [done|]. simpl. lia.
    + eapply Forall_impl; [apply IH|]. intros entry (n & preview & -> & Hn).
      eexists _, _. split; [done|]. simpl. lia.
  - eapply Forall_impl; [apply IH|]. intros entry (n & preview & -> & Hn).
    eexists _, _. split; [done|]. simpl. lia.
Qed.

End Accounting.

(** X6. Take a table text whose lines, trimmed and without the empty ones,
    are a header line that tokenizes and data lines, whatever they are. The
    table is read without loss of account: every data line gives either one
    record or one error, so the records and the errors together are as many
    as the data lines. The keys of every record are the header's column
    names (all but [__proto__], which an object cannot hold as a key).
    The console gets two lines for each error: the error, which names the
    file and a line number between 2 and the number of non-empty lines, and
    the notice that the row is skipped. *)
Theorem parseCSV_accounts_for_every_line csvText filename header_line data_lines headers :
  List.filter nonEmpty (List.map trim (splitLines csvText))
  = header_line :: data_lines →
  parseCSVLine header_line 1 = Return headers →
  ∃ records errors,
    parseCSV csvText filename = (Return records, withSkipNotice errors)
    ∧ length records + length errors = length data_lines
    ∧ length (withSkipNotice errors) = 2 * length errors
    ∧ Forall (λ record : row, dom record = keysOf headers) records
    ∧ Forall (λ entry, ∃ (n : nat) preview,
                entry = ErrorParsing filename n (UnterminatedQuote n preview)
                ∧ (2 <= n <= 1 + length data_lines)%nat) errors.
Proof.
  intros Hlines Hheader. rewrite parseCSV_spec. unfold nonEmptyLines.
  rewrite Hlines, Hheader, rowErrors_rowFailures.
  eexists _, _. split; [done|].
  split; [apply validRows_rowFailures_length|].
  split.
  { unfold withSkipNotice.
    induction (rowFailures filename data_lines 1) as [|e l IH]; [done|].
    cbn [flat_map app length]. rewrite IH. lia. }
  split; [apply validRows_dom|].
  eapply Forall_impl; [apply rowFailures_shape|].
  intros entry (n & preview & -> & Hn). eexists _, _. split; [done|]. lia.
Qed.

(** A table with a blank line, a data line in order and a data line that
    opens a quote and never closes it. *)
Lemma parseCSV_accounts_for_every_line_witness :
  ∃ records errors,
    parseCSV
      ("id,title" +:+ String LF (String LF ("x,y" +:+ String LF (String DQUOTE "z,w"))))
      "projects.csv"
    = (Return records, withSkipNotice errors)
    ∧ length records + length errors = 2
    ∧ Forall (λ record : row, dom record = {[ "id"; "title" ]}) records.
Proof.
  destruct (parseCSV_accounts_for_every_line
              ("id,title"
               +:+ String LF (String LF ("x,y" +:+ String LF (String DQUOTE "z,w"))))
              "projects.csv" "id,title" ["x,y"; String DQUOTE "z,w"] ["id"; "title"]
              eq_refl eq_refl) as (records & errors & Hparse & Hlen & _ & Hdom & _).
  exists records, errors. split; [exact Hparse|]. split; [exact Hlen|].
  eapply Forall_impl; [exact Hdom|]. intros record ->. unfold keysOf.
  apply set_eq. intros k. rewrite elem_of_difference, !elem_of_list_to_set,
    !elem_of_cons, elem_of_nil, elem_of_union, !elem_of_singleton.
  split; [tauto|]. intros [->| ->]; (split; [tauto|done]).
Defined.

(** ** The Map of groups: keys and contents *)

Section MapKeys.
Context {V : Type}.
Implicit Types (m : list (string * V)) (k : string) (v : V).

Lemma get_None_iff m k : JsMap.get m k = None ↔ ¬ In k (List.map fst m).
Proof.
  induction m as [|[k' v'] m IH]; simpl; [tauto|].
  destruct (String.eqb k' k) eqn:Hk.
  - apply String.eqb_eq in Hk. split; [done|]. intros Hnot. destruct Hnot. by left.
  - apply String.eqb_neq in Hk. rewrite IH. tauto.
Qed.

Lemma set_known m k v v0 :
  JsMap.get m k = Some v0 → List.map fst (JsMap.set m k v) = List.map fst m.
Proof.
  induction m as [|[k' v'] m IH]; simpl; [done|].
  destruct (String.eqb k' k); simpl; [done|]. intros Hget. by rewrite IH.
Qed.

Lemma set_new m k v : JsMap.get m k = None → JsMap.set m k v = m ++ [(k, v)].
Proof.
  induction m as [|[k' v'] m IH]; simpl; [done|].
  destruct (String.eqb k' k); [done|]. intros Hget. by rewrite IH.
Qed.

Lemma In_get_NoDup m k v :
  NoDup (List.map fst m) → In (k, v) m → JsMap.get m k = Some v.
Proof.
  induction m as [|[k' v'] m IH]; simpl; [done|].
  intros [Hfresh Hnodup]%NoDup_cons [[= -> ->]|Hin].
  - by rewrite String.eqb_refl.
  - destruct (String.eqb k' k) eqn:Hk; [|by apply IH].
    apply String.eqb_eq in Hk as ->. destruct Hfresh.
    apply list_elem_of_In, in_map_iff. by exists (k, v).
Qed.

End MapKeys.

Section GroupInvariant.
Context `{NumberBuiltin}.

Lemma set_group_concat (m : list (string * list Entry.t)) k g e :
  JsMap.get m k = Some g →
  concat (List.map snd (JsMap.set m k (g ++ [e]))) ≡ₚ concat (List.map snd m) ++ [e].
Proof.
  induction m as [|[k' g'] m IH]; simpl; [done|].
  destruct (String.eqb k' k); simpl.
  - intros [= ->]. rewrite <- !app_assoc. apply Permutation_app_head.
    apply Permutation_app_comm.
  - intros Hget. rewrite IH by done. by rewrite app_assoc.
Qed.

Lemma groupStep_invariant acc cs :
  NoDup (List.map fst acc) →
  Forall (λ k, nonEmpty k = true) (List.map fst acc) →
  NoDup (List.map fst (groupStep acc cs))
  ∧ Forall (λ k, nonEmpty k = true) (List.map fst (groupStep acc cs))
  ∧ concat (List.map snd (groupStep acc cs))
    ≡ₚ concat (List.map snd acc)
       ++ (if nonEmpty (caseStudyKey cs) then [caseStudyEntry cs] else []).
Proof.
  intros Hnodup Hkeys. unfold groupStep.
  destruct (nonEmpty (caseStudyKey cs)) eqn:Hkey; simpl.
  2:{ by rewrite app_nil_r. }
  destruct (JsMap.get acc (caseStudyKey cs)) as [g|] eqn:Hget; simpl.
  - rewrite (set_known acc _ _ g Hget). split; [done|]. split; [done|].
    by apply set_group_concat.
  - rewrite (set_new acc _ _ Hget), !List.map_app, concat_app. simpl.
    split; [|split; [|done]].
    + apply NoDup_app. split; [done|]. split; [|apply NoDup_singleton].
      intros k Hk ->%list_elem_of_singleton.
      apply get_None_iff in Hget. by apply Hget, list_elem_of_In.
    + apply Forall_app. split; [done|]. by repeat constructor.
Qed.

Lemma fold_groupStep_invariant rows acc :
  NoDup (List.map fst acc) →
  Forall (λ k, nonEmpty k = true) (List.map fst acc) →
  NoDup (List.map fst (fold_left groupStep rows acc))
  ∧ Forall (λ k, nonEmpty k = true) (List.map fst (fold_left groupStep rows acc))
  ∧ concat (List.map snd (fold_left groupStep rows acc))
    ≡ₚ concat (List.map snd acc)
       ++ List.map caseStudyEntry
            (List.filter (λ cs, nonEmpty (caseStudyKey cs)) rows).
Proof.
  revert acc. induction rows as [|cs rows IH]; intros acc Hnodup Hkeys.
  - simpl. by rewrite app_nil_r.
  - cbn [fold_left List.filter].
    destruct (groupStep_invariant acc cs Hnodup Hkeys) as (Hn & Hk & Hc).
    destruct (IH _ Hn Hk) as (IHn & IHk & IHc).
    split; [done|]. split; [done|]. rewrite IHc, Hc, <- app_assoc.
    apply Permutation_app_head. by destruct (nonEmpty (caseStudyKey cs)).
Qed.

End GroupInvariant.

Lemma caseStudyById_NoDup `{NumberBuiltin} (caseStudySections : list row) :
  NoDup (List.map fst (caseStudyById caseStudySections)).
Proof.
  by destruct (fold_groupStep_invariant caseStudySections []
                 (NoDup_nil_2) (Forall_nil_2 _)) as (? & _ & _).
Qed.

Lemma caseStudyById_In `{NumberBuiltin} (caseStudySections : list row) key group :
  In (key, group) (caseStudyById caseStudySections) →
  nonEmpty key = true ∧ group = groupOf caseStudySections key ∧ group ≠ [].
Proof.
  intros Hin.
  apply (In_get_NoDup _ key group (caseStudyById_NoDup caseStudySections)) in Hin.
  by apply caseStudyById_get_Some in Hin.
Qed.

(** X7. The Map of the grouping is a partition of the case-study rows that have
    a key: its keys are distinct, non-empty and trimmed, each key holds the
    entries of the rows of that key, in table order and at least one, and
    all groups together hold every keyed row once. The key of a row is its
    [project_id], or its [projectId] when that is missing or empty,
    trimmed; the entry of a row has the row's [image_url], [text] and
    section title, and the number of its [section_order] or
    [sectionOrder]. *)
Theorem caseStudyById_partition `{NumberBuiltin} (caseStudySections : list row) :
  let byId := caseStudyById caseStudySections in
  NoDup (List.map fst byId)
  ∧ (∀ key group, In (key, group) byId →
       nonEmpty key = true ∧ trimmed key
       ∧ group = groupOf caseStudySections key ∧ group ≠ [])
  ∧ concat (List.map snd byId)
    ≡ₚ List.map caseStudyEntry
         (List.filter (λ cs, nonEmpty (caseStudyKey cs)) caseStudySections)
  ∧ (∀ cs, caseStudyKey cs = trim (firstFilled cs "project_id" "projectId"))
  ∧ (∀ cs, stripOrder (caseStudyEntry cs) = sectionOfRow cs)
  ∧ readsNumber "section_order" "sectionOrder"
      (λ cs, Entry.order (caseStudyEntry cs)).
Proof.
  intros byId.
  destruct (fold_groupStep_invariant caseStudySections [] (NoDup_nil_2) (Forall_nil_2 _))
    as (Hnodup & Hkeys & Hconcat).
  split; [done|].
  split; [|split; [done|]; split; [apply caseStudyKey_field|];
           split; [apply stripOrder_caseStudyEntry|apply entryOrder_reads]].
  intros key group Hin.
  apply caseStudyById_In in Hin as (Hkey & -> & Hne).
  split; [done|]. split; [|done].
  destruct (groupOf caseStudySections key) as [|e g] eqn:Hg; [done|].
  destruct (groupOf_provenance caseStudySections key e) as (cs & _ & <- & _).
  { rewrite Hg. by left. }
  apply trim_idempotent.
Qed.

(** ** Children of the projects and of the focus areas *)

Section Children.
Context `{NumberBuiltin}.

Lemma caseStudyById_get_default sections k :
  default [] (JsMap.get (caseStudyById sections) k)
  = if nonEmpty k then groupOf sections k else [].
Proof.
  rewrite caseStudyById_get. destruct (nonEmpty k); [|done].
  by destruct (groupOf sections k).
Qed.

Lemma caseStudyById_is_Some sections key :
  is_Some (JsMap.get (caseStudyById sections) key)
  ↔ key ≠ EmptyString ∧ rowsOfKey sections key ≠ [].
Proof.
  rewrite caseStudyById_get, groupOf_rowsOfKey.
  destruct key as [|c key]; simpl.
  - split; [by intros [? ?]|by intros [? _]].
  - destruct (rowsOfKey sections (String c key)) as [|r rows]; simpl.
    + split; [by intros [? ?]|by intros [_ ?]].
    + split; [done|by eexists].
Qed.

Lemma byOrder_caseStudyEntry a b :
  byOrder (caseStudyEntry a) (caseStudyEntry b) = (sectionOrder a - sectionOrder b)%Q.
Proof. done. Qed.

(** The sections of a key as documents: the rows of the key, sorted by
    their section order. *)
Lemma sections_of_key sections key :
  List.map stripOrder
    (jsSort byOrder (default [] (JsMap.get (caseStudyById sections) key)))
  = List.map sectionOfRow
      (jsSort (λ a b, (sectionOrder a - sectionOrder b)%Q)
         (sectionRowsOf sections key)).
Proof.
  rewrite caseStudyById_get_default. unfold sectionRowsOf.
  destruct (nonEmpty key); [|done]. rewrite groupOf_rowsOfKey.
  rewrite <- (jsSort_map caseStudyEntry
                (λ a b, (sectionOrder a - sectionOrder b)%Q) byOrder) by done.
  rewrite List.map_map. apply List.map_ext. intros cs.
  apply stripOrder_caseStudyEntry.
Qed.

Lemma sectionRowsOf_stablySorted sections key :
  stablySorted sectionOrder (sectionRowsOf sections key)
    (jsSort (λ a b, (sectionOrder a - sectionOrder b)%Q) (sectionRowsOf sections key)).
Proof. by apply jsSort_stablySorted. Qed.

Lemma standaloneCaseStudies_ids byId ps :
  List.map CaseStudyOnly.id (standaloneCaseStudies byId ps)
  = List.filter
      (λ id, negb (existsb (λ p, String.eqb (Project.id p) id) ps))
      (List.map fst byId).
Proof.
  unfold standaloneCaseStudies. induction byId as [|[k g] byId IH]; [done|].
  cbn [List.filter List.map fst].
  destruct (negb (existsb (λ p, String.eqb (Project.id p) k) ps)); simpl;
    by rewrite IH.
Qed.

Lemma buildProject_details_ext details1 details2 byId project :
  List.filter (λ d, bool_decide (d !! "project_id" = Some (projectId project))) details1
  = List.filter (λ d, bool_decide (d !! "project_id" = Some (projectId project))) details2 →
  buildProject details1 byId project = buildProject details2 byId project.
Proof. intros Hfilter. unfold buildProject. by rewrite Hfilter. Qed.

End Children.

(** The example tables with the keys of their rows evaluated. *)
Lemma sections_out_of_order_sorted `{NumberBuiltin} key :
  Number "2" = Some 2%Q → Number "1" = Some 1%Q →
  List.map stripOrder
    (jsSort byOrder
       (default []
          (JsMap.get (caseStudyById Examples.sections_out_of_order) key)))
  = if String.eqb key "p1"
    then [sectionOfRow Examples.sec_z; sectionOfRow Examples.sec_a;
          sectionOfRow Examples.sec_b]
    else if String.eqb key "solo"
    then [sectionOfRow Examples.solo_a; sectionOfRow Examples.solo_b]
    else [].
Proof.
  intros H2 H1. rewrite sections_of_key.
  rewrite (jsSort_keyed sectionOrder) by done.
  unfold sectionRowsOf, rowsOfKey, Examples.sections_out_of_order.
  cbn [List.filter].
  change (trim (firstFilled Examples.sec_b "project_id" "projectId")) with "p1".
  change (trim (firstFilled Examples.sec_a "project_id" "projectId")) with "p1".
  change (trim (firstFilled Examples.sec_z "project_id" "projectId")) with "p1".
  change (trim (firstFilled Examples.solo_a "project_id" "projectId")) with "solo".
  change (trim (firstFilled Examples.solo_b "project_id" "projectId")) with "solo".
  assert (sectionOrder Examples.sec_b = 2%Q) as Hb
    by (by apply (toNumber_number "2")).
  assert (sectionOrder Examples.sec_a = 1%Q) as Ha
    by (by apply (toNumber_number "1")).
  assert (sectionOrder Examples.sec_z = 0%Q) as Hz by done.
  assert (sectionOrder Examples.solo_b = 2%Q) as Hsb
    by (by apply (toNumber_number "2")).
  assert (sectionOrder Examples.solo_a = 1%Q) as Hsa
    by (by apply (toNumber_number "1")).
  destruct (String.eqb key "p1") eqn:Hp1.
  { apply String.eqb_eq in Hp1 as ->. cbn [nonEmpty String.eqb Ascii.eqb Bool.eqb
      List.filter List.map andb]. simpl List.filter. cbn [List.map].
    rewrite Hb, Ha, Hz. reflexivity. }
  destruct (String.eqb key "solo") eqn:Hsolo.
  { apply String.eqb_eq in Hsolo as ->. cbn [nonEmpty String.eqb Ascii.eqb Bool.eqb
      List.filter List.map andb]. simpl List.filter. cbn [List.map].
    rewrite Hsb, Hsa. reflexivity. }
  rewrite (String.eqb_sym "p1" key), Hp1, (String.eqb_sym "solo" key), Hsolo.
  by destruct (nonEmpty key).
Qed.

(** X8. The sections of a case study come out in ascending section order, rows
    of one order in table order: for every project of the project list they
    are the sections of the case-study rows whose trimmed foreign key is the
    project's id (none when the id is empty), and for every element of the
    orphan collection those of the rows of its id. The section order of a
    row is the number of its [section_order], or of its [sectionOrder]
    when the row has no [section_order], and 0 when the field is missing,
    empty or not a finite number. Five rows of p1 and solo in mixed order
    come out for the project p1 as its three rows with the orders empty, 1
    and 2, and for the orphan solo as its two rows with the orders 1 and 2,
    for any [Number] that reads the strings 2 and 1 as the numbers 2 and 1. *)
Theorem caseStudy_sections_in_order `{NumberBuiltin}
    (projects projectDetails caseStudySections : list row) :
  (∀ p, In p (projectsData projects projectDetails caseStudySections) →
     ∃ sorted,
       stablySorted sectionOrder
         (sectionRowsOf caseStudySections (Project.id p)) sorted
       ∧ Project.caseStudy p = List.map sectionOfRow sorted)
  ∧ (∀ o, In o (caseStudyOnly projects projectDetails caseStudySections) →
       ∃ sorted,
         stablySorted sectionOrder
           (rowsOfKey caseStudySections (CaseStudyOnly.id o)) sorted
         ∧ CaseStudyOnly.caseStudy o = List.map sectionOfRow sorted)
  ∧ readsNumber "section_order" "sectionOrder" sectionOrder
  ∧ (Number "2" = Some 2%Q → Number "1" = Some 1%Q →
     List.map Project.caseStudy
       (projectsData [Examples.project_spaced] projectDetails
          Examples.sections_out_of_order)
     = [[ {| SectionDoc.image := None; SectionDoc.text := Some "zeroth";
             SectionDoc.sectionTitle := None |};
          {| SectionDoc.image := None; SectionDoc.text := Some "first";
             SectionDoc.sectionTitle := Some "Intro" |};
          {| SectionDoc.image := None; SectionDoc.text := Some "second";
             SectionDoc.sectionTitle := None |} ]]
     ∧ caseStudyOnly [Examples.project_spaced] projectDetails
         Examples.sections_out_of_order
       = [ {| CaseStudyOnly.id := "solo";
              CaseStudyOnly.caseStudy :=
                [ {| SectionDoc.image := Some "i.png"; SectionDoc.text := Some "s1";
                     SectionDoc.sectionTitle := None |};
                  {| SectionDoc.image := None; SectionDoc.text := Some "s2";
                     SectionDoc.sectionTitle := None |} ] |} ]).
Proof.
  split; [|split; [|split; [apply sectionOrder_reads|]]].
  - intros p (project & Hin & ->)%In_projectsData.
    rewrite projectOf_id, projectOf_caseStudy, sections_of_key.
    eexists. split; [apply sectionRowsOf_stablySorted|done].
  - intros o. rewrite caseStudyOnly_spec. unfold standaloneCaseStudies.
    intros ([k g] & <- & [Hin _]%filter_In)%in_map_iff. simpl.
    pose proof Hin as (Hk & _ & _)%caseStudyById_In.
    apply (In_get_NoDup _ k g (caseStudyById_NoDup caseStudySections)) in Hin.
    pose proof (sections_of_key caseStudySections k) as Hsections.
    rewrite Hin in Hsections. simpl in Hsections. rewrite Hsections.
    unfold sectionRowsOf. rewrite Hk.
    eexists. split; [|done]. by apply jsSort_stablySorted.
  - intros H2 H1. split.
    + rewrite projectsData_spec. cbn [List.map jsSort sortInsert].
      rewrite projectOf_caseStudy.
      by rewrite (sections_out_of_order_sorted _ H2 H1).
    + rewrite caseStudyOnly_spec, projectsData_spec.
      cbn [List.map jsSort sortInsert]. unfold standaloneCaseStudies.
      assert (List.map fst (caseStudyById Examples.sections_out_of_order)
              = ["p1"; "solo"]) as Hkeys by reflexivity.
      destruct (caseStudyById Examples.sections_out_of_order)
        as [|[k1 g1] [|[k2 g2] [|]]] eqn:HbyId; try done.
      injection Hkeys as -> ->.
      pose proof (sections_out_of_order_sorted "solo" H2 H1) as Hsolo.
      rewrite HbyId in Hsolo. cbn in Hsolo.
      cbn [List.filter existsb]. rewrite !projectOf_id.
      change (projectId Examples.project_spaced) with "p1".
      cbn [String.eqb Ascii.eqb Bool.eqb orb negb andb List.map List.filter].
      by rewrite Hsolo.
Qed.

(** With the decimal [Number] of the examples. *)
Lemma caseStudy_sections_in_order_witness :
  List.map (List.map SectionDoc.text)
    (List.map Project.caseStudy
       (@projectsData Examples.decimalNumber [Examples.project_spaced] []
          Examples.sections_out_of_order))
  = [[Some "zeroth"; Some "first"; Some "second"]]
  ∧ List.map (λ o, (CaseStudyOnly.id o,
                    List.map SectionDoc.text (CaseStudyOnly.caseStudy o)))
      (@caseStudyOnly Examples.decimalNumber [Examples.project_spaced] []
         Examples.sections_out_of_order)
    = [("solo", [Some "s1"; Some "s2"])].
Proof.
  destruct (@caseStudy_sections_in_order Examples.decimalNumber [] [] [])
    as (_ & _ & _ & Hexample).
  destruct (Hexample eq_refl eq_refl) as [-> ->]. by split.
Defined.

(** X9. The details of every project of the project list are the details of
    the detail rows whose [project_id] is the project's id, in ascending
    detail order, rows of one order in table order. The detail order of a
    row is the number of its [detail_order], or of its [detailOrder] when
    the row has no [detail_order], and 0 when the field is missing, empty or
    not a finite number. The detail of a row has the row's [heading] and
    [text], its [image] or else [image_url], its [case_study_link] or else
    [caseStudyLink], and its [password], each the empty string when there
    is none. Three detail rows of p1 with the orders 2, 1 and none, among
    them one of another project, come out as the rows without order, of
    order 1 and of order 2. *)
Theorem project_details_in_order `{NumberBuiltin}
    (projects projectDetails caseStudySections : list row) :
  (∀ p, In p (projectsData projects projectDetails caseStudySections) →
     ∃ sorted,
       stablySorted detailOrder
         (List.filter (λ d, bool_decide (d !! "project_id" = Some (Project.id p)))
            projectDetails)
         sorted
       ∧ Project.details p = List.map detailOfRow sorted)
  ∧ readsNumber "detail_order" "detailOrder" detailOrder
  ∧ (Number "2" = Some 2%Q → Number "1" = Some 1%Q →
     List.map Project.details
       (projectsData [Examples.project_spaced] Examples.details_out_of_order
          caseStudySections)
     = [[ {| ProjectDetail.heading := Some "Z"; ProjectDetail.text := None;
             ProjectDetail.image := EmptyString;
             ProjectDetail.caseStudyLink := EmptyString;
             ProjectDetail.password := EmptyString |};
          {| ProjectDetail.heading := Some "A"; ProjectDetail.text := None;
             ProjectDetail.image := "a.png";
             ProjectDetail.caseStudyLink := "solo";
             ProjectDetail.password := EmptyString |};
          {| ProjectDetail.heading := Some "B"; ProjectDetail.text := None;
             ProjectDetail.image := EmptyString;
             ProjectDetail.caseStudyLink := EmptyString;
             ProjectDetail.password := EmptyString |} ]]).
Proof.
  split; [|split; [apply detailOrder_reads|]].
  - intros p (project & Hin & ->)%In_projectsData.
    rewrite projectOf_id, projectOf_details.
    eexists. split; [by apply jsSort_stablySorted|].
    apply List.map_ext. intros d. apply projectDetail_field.
  - intros H2 H1. rewrite projectsData_spec. cbn [List.map jsSort sortInsert].
    rewrite projectOf_details.
    rewrite (jsSort_keyed detailOrder) by done.
    change (projectId Examples.project_spaced) with "p1".
    assert (List.filter (λ d : row, bool_decide (d !! "project_id" = Some "p1"))
              Examples.details_out_of_order
            = [Examples.det_b; Examples.det_a; Examples.det_z]) as ->
      by reflexivity.
    cbn [List.map].
    assert (detailOrder Examples.det_b = 2%Q) as ->
      by (by apply (toNumber_number "2")).
    assert (detailOrder Examples.det_a = 1%Q) as ->
      by (by apply (toNumber_number "1")).
    assert (detailOrder Examples.det_z = 0%Q) as -> by done.
    reflexivity.
Qed.

(** With the decimal [Number] of the examples. *)
Lemma project_details_in_order_witness :
  List.map (List.map ProjectDetail.heading)
    (List.map Project.details
       (@projectsData Examples.decimalNumber [Examples.project_spaced]
          Examples.details_out_of_order []))
  = [[Some "Z"; Some "A"; Some "B"]].
Proof.
  destruct (@project_details_in_order Examples.decimalNumber [] [] [])
    as (_ & _ & Hexample).
  by rewrite (Hexample eq_refl eq_refl).
Defined.

(** X10. A detail row whose [project_id] is the trimmed id of no project is
    dropped: the project list and the orphan collection are what they are
    without the row. Details have no orphan collection. *)
Theorem unmatched_detail_row_dropped `{NumberBuiltin}
    (projects before after caseStudySections : list row) (d : row) :
  (∀ project, In project projects → d !! "project_id" ≠ Some (projectId project)) →
  normalizeProjects projects (before ++ d :: after) caseStudySections
  = normalizeProjects projects (before ++ after) caseStudySections.
Proof.
  intros Hunmatched. rewrite !normalizeProjects_spec. cbv zeta.
  assert (List.map (projectOf (before ++ d :: after) (caseStudyById caseStudySections))
            projects
          = List.map (projectOf (before ++ after) (caseStudyById caseStudySections))
              projects) as ->; [|done].
  apply List.map_ext_in. intros project Hin. unfold projectOf.
  rewrite (buildProject_details_ext (before ++ d :: after) (before ++ after)); [done|].
  rewrite !List.filter_app. cbn [List.filter].
  by rewrite (bool_decide_eq_false_2 _ (Hunmatched project Hin)).
Qed.

Lemma unmatched_detail_row_dropped_witness :
  @normalizeProjects Examples.decimalNumber [Examples.project_p1]
    ([Examples.detail_snake] ++ Examples.detail_camel :: []) []
  = @normalizeProjects Examples.decimalNumber [Examples.project_p1]
      ([Examples.detail_snake] ++ []) [].
Proof.
  apply (@unmatched_detail_row_dropped Examples.decimalNumber
           [Examples.project_p1] [Examples.detail_snake] [] [] Examples.detail_camel).
  intros project [<-|[]]. vm_compute. discriminate.
Defined.

(** X11. Projects that share an id carry the same case study and the same
    details, although [projects.map] sorts the array of the Map in place
    while it goes through the rows. *)
Theorem same_id_same_children `{NumberBuiltin}
    (projects projectDetails caseStudySections : list row) p q :
  In p (projectsData projects projectDetails caseStudySections) →
  In q (projectsData projects projectDetails caseStudySections) →
  Project.id p = Project.id q →
  Project.caseStudy p = Project.caseStudy q
  ∧ Project.details p = Project.details q.
Proof.
  intros (rp & _ & ->)%In_projectsData (rq & _ & ->)%In_projectsData.
  rewrite !projectOf_id, !projectOf_caseStudy, !projectOf_details.
  by intros ->.
Qed.

Lemma same_id_same_children_witness :
  let rows := [Examples.project_p1;
               Examples.mkRow [("id", " p1 "); ("title", "Again")]] in
  let byId := @caseStudyById Examples.decimalNumber [Examples.section_snake] in
  Project.caseStudy
    (projectOf (H := Examples.decimalNumber) [] byId Examples.project_p1)
  = Project.caseStudy
      (projectOf (H := Examples.decimalNumber) [] byId
         (Examples.mkRow [("id", " p1 "); ("title", "Again")])).
Proof.
  intros rows byId.
  apply (@same_id_same_children Examples.decimalNumber rows []
           [Examples.section_snake]).
  - left. reflexivity.
  - right. left. reflexivity.
  - reflexivity.
Defined.

(** X12. The ids of the orphan collection are distinct, and they are the keys of
    the Map that are the trimmed id of no project. The trimmed id of a
    project row is its [id] field, trimmed, and the keys of the Map are the
    non-empty strings that are the trimmed foreign key of some case-study
    row. *)
Theorem caseStudyOnly_ids `{NumberBuiltin}
    (projects projectDetails caseStudySections : list row) :
  let ids :=
    List.map CaseStudyOnly.id
      (caseStudyOnly projects projectDetails caseStudySections) in
  NoDup ids
  ∧ (∀ key, In key ids
      ↔ is_Some (JsMap.get (caseStudyById caseStudySections) key)
        ∧ ∀ project, In project projects → projectId project ≠ key)
  ∧ (∀ project, projectId project = trim (fieldOr project "id"))
  ∧ (∀ key, is_Some (JsMap.get (caseStudyById caseStudySections) key)
       ↔ key ≠ EmptyString ∧ rowsOfKey caseStudySections key ≠ []).
Proof.
  intros ids. unfold ids. rewrite caseStudyOnly_spec, standaloneCaseStudies_ids.
  pose proof (caseStudyById_NoDup caseStudySections) as Hnodup.
  split; [by apply NoDup_ListNoDup, List.NoDup_filter, NoDup_ListNoDup|].
  split; [|split; [apply projectId_field|apply caseStudyById_is_Some]].
  intros key. rewrite filter_In, negb_true_iff.
  assert (existsb
            (λ p, String.eqb (Project.id p) key)
            (projectsData projects projectDetails caseStudySections) = false
          ↔ ∀ project, In project projects → projectId project ≠ key) as ->.
  { rewrite <- not_true_iff_false, existsb_project_id. split.
    - intros Hnone project Hin Hid. apply Hnone.
      exists (projectOf projectDetails (caseStudyById caseStudySections) project).
      split; [|by rewrite projectOf_id]. apply In_projectsData. by exists project.
    - intros Hnone (p & (project & Hin & ->)%In_projectsData & Hid).
      rewrite projectOf_id in Hid. by apply (Hnone project). }
  assert (In key (List.map fst (caseStudyById caseStudySections))
          ↔ is_Some (JsMap.get (caseStudyById caseStudySections) key)) as ->; [|done].
  rewrite <- not_eq_None_Some, get_None_iff.
  split; [tauto|]. intros Hnn.
  destruct (List.in_dec String.eq_dec key
              (List.map fst (caseStudyById caseStudySections)));
    [done|by destruct Hnn].
Qed.

Section FocusAreas.
Context `{NumberBuiltin}.

Lemma In_focusAreasData fa focusAreas focusAreaSections :
  In fa (focusAreasData focusAreas focusAreaSections)
  ↔ ∃ r, In r focusAreas ∧ fa = buildFocusArea focusAreaSections r.
Proof.
  unfold focusAreasData. rewrite <- list_elem_of_In, jsSort_elem_of.
  rewrite list_elem_of_In, in_map_iff.
  split; intros (r & ? & ?); by exists r.
Qed.

End FocusAreas.

(** X13. The focus-area list has one element for each row, in ascending display
    order, rows of one display order in table order; the id is the field as
    it is. The display order of a row is the number of its
    [display_order], or of its [displayOrder] when the row has no
    [display_order], and 0 when the field is missing, empty or not a finite
    number. Three rows fa, fb, fc with the orders 2, 1 and none come out as
    fc, fb, fa, for any [Number] that reads the strings 2 and 1 as the
    numbers 2 and 1. *)
Theorem focusAreasData_sorted_by_displayOrder `{NumberBuiltin}
    (focusAreas focusAreaSections : list row) :
  let built := List.map (buildFocusArea focusAreaSections) focusAreas in
  stablySorted FocusArea.displayOrder built
    (focusAreasData focusAreas focusAreaSections)
  ∧ length (focusAreasData focusAreas focusAreaSections) = length focusAreas
  ∧ List.map FocusArea.id built = List.map (λ fa : row, fa !! "id") focusAreas
  ∧ List.map FocusArea.displayOrder built = List.map displayOrderOf focusAreas
  ∧ readsNumber "display_order" "displayOrder" displayOrderOf
  ∧ (Number "2" = Some 2%Q → Number "1" = Some 1%Q →
     List.map (λ fa, (FocusArea.id fa, FocusArea.displayOrder fa))
       (focusAreasData [Examples.focus_a; Examples.focus_b; Examples.focus_c]
          focusAreaSections)
     = [(Some "fc", 0%Q); (Some "fb", 1%Q); (Some "fa", 2%Q)]).
Proof.
  intros built. split; [by apply jsSort_stablySorted|].
  split; [|split; [|split; [|split; [apply displayOrderOf_reads|]]]].
  - unfold focusAreasData. by rewrite jsSort_length, List.length_map.
  - unfold built. rewrite List.map_map. by apply List.map_ext.
  - unfold built. rewrite List.map_map. by apply List.map_ext.
  - intros H2 H1. unfold focusAreasData.
    rewrite (jsSort_map (λ fa, (FocusArea.id fa, FocusArea.displayOrder fa))
               _ (λ x y : option string * Q, (x.2 - y.2)%Q)) by done.
    rewrite List.map_map. cbn [List.map buildFocusArea FocusArea.id
      FocusArea.displayOrder].
    assert (displayOrderOf Examples.focus_a = 2%Q) as ->
      by (by apply (toNumber_number "2")).
    assert (displayOrderOf Examples.focus_b = 1%Q) as ->
      by (by apply (toNumber_number "1")).
    assert (displayOrderOf Examples.focus_c = 0%Q) as -> by done.
    reflexivity.
Qed.

(** With the decimal [Number] of the examples. *)
Lemma focusAreasData_sorted_by_displayOrder_witness :
  List.map FocusArea.id
    (@focusAreasData Examples.decimalNumber
       [Examples.focus_a; Examples.focus_b; Examples.focus_c] [])
  = [Some "fc"; Some "fb"; Some "fa"].
Proof.
  destruct (@focusAreasData_sorted_by_displayOrder Examples.decimalNumber [] [])
    as (_ & _ & _ & _ & _ & Hexample).
  specialize (Hexample eq_refl eq_refl).
  apply (f_equal (List.map fst)) in Hexample.
  rewrite List.map_map in Hexample. exact Hexample.
Defined.

(** X14. The sections of every focus area of the list are the sections of the
    section rows whose [focus_area_id] is the focus area's id, compared as
    they are, in ascending section order, rows of one order in table order.
    The section order of a row is the number of its [section_order], or of
    its [sectionOrder] when the row has no [section_order], and 0 when the
    field is missing, empty or not a finite number; the section of a row
    has the row's [image_url], [text] and section title. Three section rows
    of f1 with the orders 2, 1 and empty, among them one of another focus
    area, come out as the rows of order empty, 1 and 2. *)
Theorem focusArea_sections_in_order `{NumberBuiltin}
    (focusAreas focusAreaSections : list row) :
  (∀ fa, In fa (focusAreasData focusAreas focusAreaSections) →
     ∃ sorted,
       stablySorted sectionOrder
         (List.filter (λ s, bool_decide (s !! "focus_area_id" = FocusArea.id fa))
            focusAreaSections)
         sorted
       ∧ FocusArea.sections fa = List.map sectionOfRow sorted)
  ∧ readsNumber "section_order" "sectionOrder" sectionOrder
  ∧ (Number "2" = Some 2%Q → Number "1" = Some 1%Q →
     List.map FocusArea.sections
       (focusAreasData [Examples.focus_f1] Examples.focus_sections_out_of_order)
     = [[ {| SectionDoc.image := None; SectionDoc.text := Some "z";
             SectionDoc.sectionTitle := None |};
          {| SectionDoc.image := None; SectionDoc.text := Some "a";
             SectionDoc.sectionTitle := Some "T" |};
          {| SectionDoc.image := None; SectionDoc.text := Some "b";
             SectionDoc.sectionTitle := None |} ]]).
Proof.
  split; [|split; [apply sectionOrder_reads|]].
  - intros fa (r & Hin & ->)%In_focusAreasData.
    cbn [buildFocusArea FocusArea.id FocusArea.sections].
    eexists. split; [by apply jsSort_stablySorted|].
    apply List.map_ext. intros s. apply focusAreaSection_field.
  - intros H2 H1. unfold focusAreasData.
    cbn [List.map jsSort sortInsert buildFocusArea FocusArea.sections].
    rewrite (jsSort_keyed sectionOrder) by done.
    assert (List.filter
              (λ s : row, bool_decide (s !! "focus_area_id" = Examples.focus_f1 !! "id"))
              Examples.focus_sections_out_of_order
            = [Examples.fsec_b; Examples.fsec_a; Examples.fsec_z]) as ->
      by reflexivity.
    cbn [List.map].
    assert (sectionOrder Examples.fsec_b = 2%Q) as ->
      by (by apply (toNumber_number "2")).
    assert (sectionOrder Examples.fsec_a = 1%Q) as ->
      by (by apply (toNumber_number "1")).
    assert (sectionOrder Examples.fsec_z = 0%Q) as -> by done.
    reflexivity.
Qed.

(** With the decimal [Number] of the examples. *)
Lemma focusArea_sections_in_order_witness :
  List.map (List.map SectionDoc.text)
    (List.map FocusArea.sections
       (@focusAreasData Examples.decimalNumber [Examples.focus_f1]
          Examples.focus_sections_out_of_order))
  = [[Some "z"; Some "a"; Some "b"]].
Proof.
  destruct (@focusArea_sections_in_order Examples.decimalNumber [] [])
    as (_ & _ & Hexample).
  by rewrite (Hexample eq_refl eq_refl).
Defined.

(** X15. A section row whose [focus_area_id] is the id of no focus area is
    dropped without a trace: focus areas have no orphan collection. *)
Theorem unmatched_focus_section_dropped `{NumberBuiltin}
    (focusAreas before after : list row) (s : row) :
  (∀ fa : row, In fa focusAreas → s !! "focus_area_id" ≠ fa !! "id") →
  focusAreasData focusAreas (before ++ s :: after)
  = focusAreasData focusAreas (before ++ after).
Proof.
  intros Hunmatched. unfold focusAreasData. f_equal.
  apply List.map_ext_in. intros fa Hin. unfold buildFocusArea.
  rewrite !List.filter_app. cbn [List.filter].
  by rewrite (bool_decide_eq_false_2 _ (Hunmatched fa Hin)).
Qed.

Lemma unmatched_focus_section_dropped_witness :
  @focusAreasData Examples.decimalNumber [Examples.focus_f1]
    ([Examples.focus_section_snake] ++ Examples.focus_section_camel :: [])
  = @focusAreasData Examples.decimalNumber [Examples.focus_f1]
      ([Examples.focus_section_snake] ++ []).
Proof.
  apply (@unmatched_focus_section_dropped Examples.decimalNumber
           [Examples.focus_f1] [Examples.focus_section_snake] []
           Examples.focus_section_camel).
  intros fa [<-|[]]. vm_compute. discriminate.
Defined.

(** ** The run: what it touches, how it ends, running it again *)

Section RunFacts.
Context `{NumberBuiltin} `{WriteDevice}.

Lemma writeAll_files files w :
  csvFiles (writeAll files w).2 = csvFiles w
  ∧ ∀ other, ¬ In other (List.map fst files) →
      jsonFiles (writeAll files w).2 !! other = jsonFiles w !! other.
Proof.
  revert w. induction files as [|[name doc] files IH]; intros w; [done|].
  cbn [writeAll]. unfold mbind, M_bind, writeFileSync.
  destruct (writeAttempt name) as [|failure]; simpl.
  - destruct (IH {| csvFiles := csvFiles w;
                    jsonFiles := <[name:=Stringified doc]> (jsonFiles w);
                    console := console w |}) as [IHcsv IHjson].
    split; [done|]. intros other Hother. rewrite IHjson by tauto.
    simpl. apply lookup_insert_ne. tauto.
  - split; [done|]. intros other Hother. apply lookup_partial_alter_ne. tauto.
Qed.

Lemma writeAll_Return files w w' :
  writeAll files w = (Return (), w') →
  Forall (λ f, writeAttempt f.1 = Written) files.
Proof.
  revert w. induction files as [|[name doc] files IH]; intros w; [done|].
  cbn [writeAll]. unfold mbind, M_bind, writeFileSync.
  destruct (writeAttempt name) as [|failure] eqn:Hw; simpl; [|done].
  intros Hrest. constructor; [done|]. by eapply IH.
Qed.

Lemma main_unfold w :
  main w
  = match readTables w with
    | (Throw e, w1) => (logged w1 [ErrorBuilding e], 1)
    | (Return t, w1) =>
        match dataDirectory with
        | DirMissing (Some message) =>
            (logged w1 [ErrorBuilding (FsError message (Some outputDir))], 1)
        | _ =>
            match writeAll (outputFiles t) w1 with
            | (Return _, w2) => (logged w2 [BuildComplete], 0)
            | (Throw e, w2) => (logged w2 [ErrorBuilding e], 1)
            end
        end
    end.
Proof.
  unfold main. rewrite buildData_spec.
  destruct (readTables w) as [[t|e] w1]; [|done].
  cbn [documentsOf]. rewrite writeDocuments_writeAll. unfold outputFiles.
  destruct dataDirectory as [|[message|]]; [|done|];
    by destruct (writeAll _ w1) as [[[]|e] w2].
Qed.

(** The run once the tables are read and the directory is ready. *)
Lemma main_ready w t w1 :
  readTables w = (Return t, w1) →
  directoryReady →
  main w
  = match writeAll (outputFiles t) w1 with
    | (Return _, w2) => (logged w2 [BuildComplete], 0)
    | (Throw e, w2) => (logged w2 [ErrorBuilding e], 1)
    end.
Proof.
  intros Hread Hdir. rewrite main_unfold, Hread.
  destruct dataDirectory as [|[message|]] eqn:Hd; [done| |done].
  by destruct (Hdir message).
Qed.

Lemma main_success w t w1 :
  readTables w = (Return t, w1) →
  directoryReady →
  (∀ name, name ∈ outputNames → writeAttempt name = Written) →
  main w
  = ({| csvFiles := csvFiles w;
        jsonFiles := written (outputFiles t) (jsonFiles w);
        console := console w1 ++ [BuildComplete] |}, 0).
Proof.
  intros Hread Hdir Hall. rewrite (main_ready w t w1 Hread Hdir), writeAll_Written.
  - destruct (readTables_files w) as [Hcsv Hjson]. rewrite Hread in Hcsv, Hjson.
    simpl in *. unfold logged. simpl. by rewrite Hcsv, Hjson.
  - repeat constructor; apply Hall; unfold outputNames; by repeat constructor.
Qed.

End RunFacts.

(** X16. A run, however it ends and whatever the platform does to the writes,
    leaves every CSV file as it was and changes no file but the four
    documents. *)
Theorem main_touches_only_outputs `{NumberBuiltin} `{WriteDevice} (w : world) :
  csvFiles (main w).1 = csvFiles w
  ∧ ∀ other, other ∉ outputNames →
      jsonFiles (main w).1 !! other = jsonFiles w !! other.
Proof.
  rewrite main_unfold.
  destruct (readTables_files w) as [Hcsv Hjson].
  destruct (readTables w) as [[t|e] w1]; simpl in Hcsv, Hjson.
  - destruct (writeAll_files (outputFiles t) w1) as [Hwcsv Hwjson].
    assert (∀ other, other ∉ outputNames →
              jsonFiles (writeAll (outputFiles t) w1).2 !! other
              = jsonFiles w !! other) as Hother.
    { intros other Hother. rewrite Hwjson, Hjson; [done|].
      by rewrite <- list_elem_of_In. }
    destruct dataDirectory as [|[message|]];
      [|simpl; split; [done|]; intros other _; by rewrite Hjson|];
      destruct (writeAll (outputFiles t) w1) as [[[]|e] w2]; simpl in *;
      (split; [congruence|done]).
  - simpl. split; [done|]. intros other _. by rewrite Hjson.
Qed.

Lemma main_zero_inv `{NumberBuiltin} `{WriteDevice} (w : world) :
  (main w).2 = 0 →
  (∃ t w1, readTables w = (Return t, w1))
  ∧ directoryReady
  ∧ ∀ name, name ∈ outputNames → writeAttempt name = Written.
Proof.
  rewrite main_unfold.
  destruct (readTables w) as [[t|e] w1] eqn:Hread; [|done].
  unfold directoryReady.
  destruct dataDirectory as [|[message|]] eqn:Hd; [|done|];
    (destruct (writeAll (outputFiles t) w1) as [[[]|e] w2] eqn:Hwrite; [|done]);
    (intros _; split; [by eexists _, _|]; split; [done|]);
    apply writeAll_Return in Hwrite; intros name Hname;
    unfold outputNames in Hname; rewrite !elem_of_cons in Hname;
    apply Forall_cons in Hwrite as [Hw1 Hwrite];
    apply Forall_cons in Hwrite as [Hw2 Hwrite];
    apply Forall_cons in Hwrite as [Hw3 Hwrite];
    apply Forall_cons in Hwrite as [Hw4 _];
    (destruct Hname as [->|[->|[->|[->|Hnil]]]]; try done;
     by apply elem_of_nil in Hnil).
Qed.

Section Rebuild.
Context `{NumberBuiltin} `{WriteDevice}.

Lemma readCSV_pure filename w :
  (readCSV filename w).1 = readPure (csvFiles w) filename.
Proof.
  unfold readCSV, readPure.
  destruct (csvFiles w !! filename) as [[csvText|code onOpen]|]; [|done..].
  by destruct (parseCSV _ _).
Qed.

Ltac step_read csv :=
  match goal with
  | Hcsv : csvFiles ?w0 = csv |- context [readCSV ?f ?w0] =>
      let Hp := fresh "Hp" in
      let Hc := fresh "Hc" in
      pose proof (readCSV_pure f w0) as Hp;
      destruct (readCSV_files f w0) as [Hc _];
      rewrite Hcsv in Hp, Hc; clear Hcsv;
      destruct (readCSV f w0) as [[?|?] ?]; simpl in Hp, Hc;
      rewrite <- Hp; cbn [andThen]; clear Hp
  end.

(** What the run reads depends on the CSV files alone. *)
Lemma readTables_pure w : (readTables w).1 = tablesOf (csvFiles w).
Proof.
  generalize (eq_refl (csvFiles w)). generalize (csvFiles w) at 2 3. intros csv Hcsv.
  unfold readTables, tablesOf, mbind, M_bind.
  repeat (step_read csv; [|done]).
  done.
Qed.

Lemma readPure_readable csv filename :
  (∃ rows, readPure csv filename = Return rows) ↔ readable csv filename.
Proof.
  unfold readPure, readable.
  destruct (csv !! filename) as [[csvText|code onOpen]|].
  - rewrite parseCSV_spec. unfold nonEmptyLines.
    destruct (List.filter nonEmpty (List.map trim (splitLines csvText)))
      as [|header_line data_lines]; [by split; [|eexists]|].
    unfold parseCSVLine. rewrite scanLine_inQuotes. cbn [inQuotes scanner_start xorb].
    rewrite <- Nat.negb_even.
    destruct (Nat.even (countQuotes header_line)); simpl.
    + by split; [|eexists].
    + split; [by intros [rows Hrows]|done].
  - split; [by intros [rows Hrows]|done].
  - by split; [|eexists].
Qed.

Lemma tablesOf_readable csv :
  (∃ t, tablesOf csv = Return t)
  ↔ ∀ filename, filename ∈ sourceNames → readable csv filename.
Proof.
  split.
  - intros [t Ht] filename. unfold tablesOf in Ht.
    repeat match type of Ht with
           | andThen (readPure csv ?f) _ = _ =>
               let Hf := fresh "Hf" in
               assert (readable csv f) as Hf;
               [apply readPure_readable; destruct (readPure csv f);
                  [by eexists|done]
               |destruct (readPure csv f) eqn:?; [cbn [andThen] in Ht|done]]
           end.
    intros Hin. unfold sourceNames in Hin. rewrite !elem_of_cons in Hin.
    repeat destruct Hin as [->|Hin]; try done.
    by apply elem_of_nil in Hin.
  - intros Hall. unfold tablesOf.
    repeat match goal with
           | |- ∃ t, andThen (readPure csv ?f) _ = _ =>
               let rows := fresh "rows" in
               let Hrows := fresh "Hrows" in
               destruct (proj2 (readPure_readable csv f)) as [rows Hrows];
               [apply Hall; unfold sourceNames; rewrite !elem_of_cons; tauto
               |rewrite Hrows; cbn [andThen]]
           end.
    by eexists.
Qed.

Lemma outputFiles_names t : List.map fst (outputFiles t) = outputNames.
Proof. done. Qed.

Lemma written_idempotent files m :
  NoDup (List.map fst files) → written files (written files m) = written files m.
Proof.
  intros Hnodup. apply map_eq. intros name.
  destruct (List.in_dec String.eq_dec name (List.map fst files)) as [Hin|Hout].
  - apply in_map_iff in Hin as ([name' doc] & <- & Hin). simpl.
    apply list_elem_of_In in Hin. by rewrite !(written_lookup files _ name' doc).
  - rewrite <- list_elem_of_In in Hout. by rewrite !written_lookup_other.
Qed.

End Rebuild.

(** X17. The exit code of a run is 0 or 1. It is 0 exactly when three things
    hold. Each of the nine CSV sources is missing, or is a file that can be
    read and that has no line but blank ones or has an even number of
    double quotes on its first line that is not blank. The data directory
    is there or can be made. Each of the four writes succeeds. *)
Theorem main_exit_code `{NumberBuiltin} `{WriteDevice} (w : world) :
  ((main w).2 = 0 ∨ (main w).2 = 1)
  ∧ ((main w).2 = 0
     ↔ (∀ filename, filename ∈ sourceNames → readable (csvFiles w) filename)
       ∧ directoryReady
       ∧ ∀ name, name ∈ outputNames → writeAttempt name = Written).
Proof.
  split.
  - rewrite main_unfold. destruct (readTables w) as [[t|e] w1]; [|by right].
    destruct dataDirectory as [|[message|]]; [|by right|];
      (destruct (writeAll (outputFiles t) w1) as [[[]|e] w2]; [by left|by right]).
  - rewrite <- tablesOf_readable, <- readTables_pure. split.
    + intros (Hread & Hdir & Hall)%main_zero_inv. split; [|done].
      destruct Hread as (t & w1 & ->). by exists t.
    + intros ([t Hread] & Hdir & Hall).
      destruct (readTables w) as [o w1] eqn:Hrun. simpl in Hread. subst o.
      by rewrite (main_success w t w1 Hrun Hdir Hall).
Qed.

(** The three ways a run ends with exit code 1 before it writes, and one
    run that ends with 0: a header line with an open quote, a source that
    is a directory, a data directory that cannot be made, and an empty
    data directory on a platform where every write succeeds. *)
Lemma main_exit_code_witness :
  (@main Examples.decimalNumber all_writable Examples.world_bad_header).2 = 1
  ∧ (@main Examples.decimalNumber all_writable Examples.world_csv_directory).2 = 1
  ∧ (@main Examples.decimalNumber Examples.no_directory Examples.world_old_outputs).2 = 1
  ∧ (@main Examples.decimalNumber all_writable Examples.world_old_outputs).2 = 0.
Proof.
  pose proof (@main_exit_code Examples.decimalNumber all_writable
                Examples.world_bad_header) as [Hcode1 Hzero1].
  pose proof (@main_exit_code Examples.decimalNumber all_writable
                Examples.world_csv_directory) as [Hcode2 Hzero2].
  pose proof (@main_exit_code Examples.decimalNumber Examples.no_directory
                Examples.world_old_outputs) as [Hcode3 Hzero3].
  pose proof (@main_exit_code Examples.decimalNumber all_writable
                Examples.world_old_outputs) as [_ Hzero4].
  split; [|split; [|split]].
  - destruct Hcode1 as [Hz|Hone]; [|exact Hone].
    apply Hzero1 in Hz as [Hread _].
    specialize (Hread "projects.csv" ltac:(by constructor)).
    vm_compute in Hread. discriminate Hread.
  - destruct Hcode2 as [Hz|Hone]; [|exact Hone].
    apply Hzero2 in Hz as [Hread _].
    specialize (Hread "projects.csv" ltac:(by constructor)).
    vm_compute in Hread. destruct Hread.
  - destruct Hcode3 as [Hz|Hone]; [|exact Hone].
    apply Hzero3 in Hz as (_ & Hdir & _). by destruct (Hdir "EACCES").
  - apply Hzero4. split; [|split].
    + intros filename _. reflexivity.
    + intros message. discriminate.
    + intros name _. reflexivity.
Defined.

(** X18. Running the build again on what a successful run left changes no
    document: the second run succeeds too, and every JSON file holds what
    it held after the first. *)
Theorem main_rebuild_idempotent `{NumberBuiltin} `{WriteDevice} (w w1 : world) :
  main w = (w1, 0) →
  ∃ w2, main w1 = (w2, 0) ∧ jsonFiles w2 = jsonFiles w1 ∧ csvFiles w2 = csvFiles w1.
Proof.
  intros Hmain.
  destruct (main_zero_inv w) as ((t & wr & Hread) & Hdir & Hall); [by rewrite Hmain|].
  rewrite (main_success w t wr Hread Hdir Hall) in Hmain.
  apply (f_equal fst) in Hmain. cbn [fst] in Hmain. subst w1.
  pose proof (readTables_pure w) as Hpure. rewrite Hread in Hpure. simpl in Hpure.
  set (w1 := {| csvFiles := csvFiles w;
                jsonFiles := written (outputFiles t) (jsonFiles w);
                console := console wr ++ [BuildComplete] |}).
  pose proof (readTables_pure w1) as Hpure1. simpl in Hpure1. rewrite <- Hpure in Hpure1.
  destruct (readTables w1) as [o wr1] eqn:Hread1. simpl in Hpure1. subst o.
  rewrite (main_success w1 t wr1 Hread1 Hdir Hall).
  eexists. split; [done|]. unfold w1. cbn [jsonFiles csvFiles]. split; [|done].
  apply written_idempotent. rewrite outputFiles_names.
  by apply (bool_decide_unpack _).
Qed.

(** X19. Two runs on the same CSV files write the same documents, whatever else
    the two directories and consoles hold. *)
Theorem outputs_determined_by_sources `{NumberBuiltin} `{WriteDevice}
    (w w' r r' : world) :
  csvFiles w = csvFiles w' →
  main w = (r, 0) → main w' = (r', 0) →
  ∀ name, name ∈ outputNames → jsonFiles r !! name = jsonFiles r' !! name.
Proof.
  intros Hcsv Hmain Hmain' name Hname.
  destruct (main_zero_inv w) as ((t & wr & Hread) & Hdir & Hall); [by rewrite Hmain|].
  destruct (main_zero_inv w') as [(t' & wr' & Hread') _]; [by rewrite Hmain'|].
  pose proof (readTables_pure w) as Hpure. rewrite Hread in Hpure.
  pose proof (readTables_pure w') as Hpure'. rewrite Hread' in Hpure'.
  simpl in Hpure, Hpure'. rewrite Hcsv, <- Hpure' in Hpure. injection Hpure as ->.
  rewrite (main_success w t' wr Hread Hdir Hall) in Hmain.
  rewrite (main_success w' t' wr' Hread' Hdir Hall) in Hmain'.
  apply (f_equal fst) in Hmain, Hmain'. cbn [fst] in Hmain, Hmain'.
  subst r r'. cbn [jsonFiles].
  rewrite <- (outputFiles_names t') in Hname.
  apply list_elem_of_In, in_map_iff in Hname as ([name' doc] & <- & Hin).
  apply list_elem_of_In in Hin. cbn [fst].
  assert (NoDup (List.map fst (outputFiles t'))) as Hnodup.
  { rewrite outputFiles_names. by apply (bool_decide_unpack _). }
  by rewrite !(written_lookup (outputFiles t') _ name' doc).
Qed.

Lemma main_rebuild_idempotent_witness :
  let first := @main Examples.decimalNumber all_writable Examples.world_old_outputs in
  ∃ w2, @main Examples.decimalNumber all_writable first.1 = (w2, 0)
    ∧ jsonFiles w2 = jsonFiles first.1.
Proof.
  intros first.
  destruct (@main_rebuild_idempotent Examples.decimalNumber all_writable
              Examples.world_old_outputs first.1 eq_refl)
    as (w2 & Hmain & Hjson & _).
  by exists w2.
Defined.

Lemma outputs_determined_by_sources_witness :
  let w' := {| csvFiles := ∅; jsonFiles := ∅; console := [BuildComplete] |} in
  jsonFiles (@main Examples.decimalNumber all_writable Examples.world_old_outputs).1
    !! "resume.json"
  = jsonFiles (@main Examples.decimalNumber all_writable w').1 !! "resume.json".
Proof.
  intros w'.
  apply (@outputs_determined_by_sources Examples.decimalNumber all_writable
           Examples.world_old_outputs w' _ _ eq_refl eq_refl eq_refl).
  unfold outputNames. by repeat constructor.
Defined.

(** ** The data service on the documents of a build *)

Section Service.
Context `{NumberBuiltin}.

Lemma existsb_false_find {A : Type} (f : A → bool) l :
  List.find f l = None → existsb f l = false.
Proof.
  induction l as [|x l IH]; simpl; [done|]. destruct (f x); [done|]. apply IH.
Qed.

Lemma find_standalone byId ps key group :
  JsMap.get byId key = Some group →
  existsb (λ p, String.eqb (Project.id p) key) ps = false →
  List.find (λ cs, String.eqb (CaseStudyOnly.id cs) key) (standaloneCaseStudies byId ps)
  = Some {| CaseStudyOnly.id := key;
            CaseStudyOnly.caseStudy := List.map stripOrder (jsSort byOrder group) |}.
Proof.
  intros Hget Hnone. unfold standaloneCaseStudies.
  induction byId as [|[k g] byId IH]; simpl in *; [done|].
  destruct (String.eqb k key) eqn:Hk.
  - apply String.eqb_eq in Hk as ->. injection Hget as ->.
    rewrite Hnone. simpl. by rewrite String.eqb_refl.
  - destruct (negb (existsb (λ p, String.eqb (Project.id p) k) ps)); simpl;
      [rewrite Hk|]; by apply IH.
Qed.

Lemma find_standalone_None byId ps key :
  JsMap.get byId key = None →
  List.find (λ cs, String.eqb (CaseStudyOnly.id cs) key) (standaloneCaseStudies byId ps)
  = None.
Proof.
  intros Hget.
  destruct (List.find _ (standaloneCaseStudies byId ps)) as [cs|] eqn:Hfind; [|done].
  apply List.find_some in Hfind as [Hin Hid]. apply String.eqb_eq in Hid.
  unfold standaloneCaseStudies in Hin.
  apply in_map_iff in Hin as ([k g] & <- & [Hin _]%filter_In). simpl in Hid. subst k.
  apply In_get_is_Some in Hin as [g' Hg']. congruence.
Qed.

(** What [fetchCaseStudy] returns on the documents of a build, from the
    Map of the groups. *)
Lemma fetchCaseStudy_group
    (projects projectDetails caseStudySections : list row) (projectId : string) :
  DataService.fetchCaseStudy
    (projectsData projects projectDetails caseStudySections)
    (caseStudyOnly projects projectDetails caseStudySections)
    projectId
  = List.map stripOrder
      (jsSort byOrder
         (default [] (JsMap.get (caseStudyById caseStudySections) (trim projectId)))).
Proof.
  unfold DataService.fetchCaseStudy. cbv zeta.
  set (id := trim projectId).
  set (ps := projectsData projects projectDetails caseStudySections).
  rewrite caseStudyOnly_spec. fold ps.
  assert (∀ p, In p ps → Project.id p = id →
            Project.caseStudy p
            = List.map stripOrder
                (jsSort byOrder
                   (default [] (JsMap.get (caseStudyById caseStudySections) id))))
    as Hattached.
  { intros p (project & _ & ->)%In_projectsData.
    rewrite projectOf_id, projectOf_caseStudy. by intros ->. }
  destruct (JsMap.get (caseStudyById caseStudySections) id) as [group|] eqn:Hget.
  - change (default [] (Some group)) with group in *.
    pose proof Hget as (_ & _ & Hne)%caseStudyById_get_Some.
    assert (Nat.ltb 0 (length (List.map stripOrder (jsSort byOrder group))) = true)
      as Hlen.
    { rewrite List.length_map, jsSort_length. by destruct group. }
    destruct (List.find (λ p, String.eqb (Project.id p) id) ps) as [p|] eqn:Hfind.
    + apply List.find_some in Hfind as [Hin Hid]. apply String.eqb_eq in Hid.
      rewrite (Hattached p Hin Hid). by rewrite Hlen.
    + rewrite (find_standalone _ ps id group Hget (existsb_false_find _ _ Hfind)).
      cbn [CaseStudyOnly.caseStudy]. by rewrite Hlen.
  - rewrite (find_standalone_None _ ps id Hget).
    destruct (List.find (λ p, String.eqb (Project.id p) id) ps) as [p|] eqn:Hfind;
      [|done].
    apply List.find_some in Hfind as [Hin Hid]. apply String.eqb_eq in Hid.
    by rewrite (Hattached p Hin Hid).
Qed.

End Service.

(** X20. [fetchCaseStudy] on the documents of a build resolves every id, with or
    without surrounding whitespace, to the sections of the case-study rows
    whose trimmed foreign key is the trimmed id, in ascending section
    order, rows of one order in table order, whether the group hangs on a
    project or stands in the orphan collection, and to no section when the
    trimmed id is empty or no row has it as its trimmed foreign key. The
    section order of a row is the number of its [section_order], or of
    its [sectionOrder] when the row has no [section_order], and 0 when
    the field is missing, empty or not a finite number. On the documents of
    five rows of p1 and solo in mixed order, the id p1 with a space gives
    the three rows of the project p1 in the order empty, 1, 2, the id solo
    with a space gives the two rows of the orphan in the order 1, 2, and an
    id unknown gives nothing. *)
Theorem fetchCaseStudy_resolves `{NumberBuiltin}
    (projects projectDetails caseStudySections : list row) (projectId : string) :
  (∃ sorted,
     stablySorted sectionOrder
       (sectionRowsOf caseStudySections (trim projectId)) sorted
     ∧ DataService.fetchCaseStudy
         (projectsData projects projectDetails caseStudySections)
         (caseStudyOnly projects projectDetails caseStudySections)
         projectId
       = List.map sectionOfRow sorted)
  ∧ ((trim projectId = EmptyString
      ∨ ∀ cs, In cs caseStudySections →
          trim (firstFilled cs "project_id" "projectId") ≠ trim projectId) →
     DataService.fetchCaseStudy
       (projectsData projects projectDetails caseStudySections)
       (caseStudyOnly projects projectDetails caseStudySections)
       projectId
     = [])
  ∧ readsNumber "section_order" "sectionOrder" sectionOrder
  ∧ (Number "2" = Some 2%Q → Number "1" = Some 1%Q →
     let ps :=
       projectsData [Examples.project_spaced] projectDetails
         Examples.sections_out_of_order in
     let standalone :=
       caseStudyOnly [Examples.project_spaced] projectDetails
         Examples.sections_out_of_order in
     DataService.fetchCaseStudy ps standalone " p1"
     = [ {| SectionDoc.image := None; SectionDoc.text := Some "zeroth";
            SectionDoc.sectionTitle := None |};
         {| SectionDoc.image := None; SectionDoc.text := Some "first";
            SectionDoc.sectionTitle := Some "Intro" |};
         {| SectionDoc.image := None; SectionDoc.text := Some "second";
            SectionDoc.sectionTitle := None |} ]
     ∧ DataService.fetchCaseStudy ps standalone "solo "
       = [ {| SectionDoc.image := Some "i.png"; SectionDoc.text := Some "s1";
              SectionDoc.sectionTitle := None |};
           {| SectionDoc.image := None; SectionDoc.text := Some "s2";
              SectionDoc.sectionTitle := None |} ]
     ∧ DataService.fetchCaseStudy ps standalone "nobody" = []).
Proof.
  split; [|split; [|split; [apply sectionOrder_reads|]]].
  - rewrite fetchCaseStudy_group, sections_of_key.
    eexists. split; [apply sectionRowsOf_stablySorted|done].
  - intros Hnone. rewrite fetchCaseStudy_group, sections_of_key.
    assert (sectionRowsOf caseStudySections (trim projectId) = []) as ->; [|done].
    unfold sectionRowsOf. destruct Hnone as [->|Hnone]; [done|].
    destruct (nonEmpty (trim projectId)); [|done].
    unfold rowsOfKey. induction caseStudySections as [|cs rows IH]; [done|].
    cbn [List.filter].
    destruct (String.eqb_spec (trim (firstFilled cs "project_id" "projectId"))
                (trim projectId)) as [Heq|Hne].
    + destruct (Hnone cs); [by left|done].
    + apply IH. intros cs' Hin. apply Hnone. by right.
  - intros H2 H1 ps standalone. unfold ps, standalone.
    rewrite !fetchCaseStudy_group, !(sections_out_of_order_sorted _ H2 H1).
    by repeat split.
Qed.

(** With the decimal [Number] of the examples. *)
Lemma fetchCaseStudy_resolves_witness :
  List.map SectionDoc.text
    (DataService.fetchCaseStudy
       (@projectsData Examples.decimalNumber [Examples.project_spaced] []
          Examples.sections_out_of_order)
       (@caseStudyOnly Examples.decimalNumber [Examples.project_spaced] []
          Examples.sections_out_of_order)
       " p1")
  = [Some "zeroth"; Some "first"; Some "second"]
  ∧ List.map SectionDoc.text
      (DataService.fetchCaseStudy
         (@projectsData Examples.decimalNumber [Examples.project_spaced] []
            Examples.sections_out_of_order)
         (@caseStudyOnly Examples.decimalNumber [Examples.project_spaced] []
            Examples.sections_out_of_order)
         "solo ")
    = [Some "s1"; Some "s2"].
Proof.
  destruct (@fetchCaseStudy_resolves Examples.decimalNumber [] [] [] EmptyString)
    as (_ & _ & _ & Hexample).
  destruct (Hexample eq_refl eq_refl) as (-> & -> & _). by split.
Defined.

(** X21. [fetchProjectById] on the project list of a build finds, for the id of
    every project row, trimmed or not, a project of that trimmed id; for an
    id that is the trimmed id of no row it finds nothing. *)
Theorem fetchProjectById_finds `{NumberBuiltin}
    (projects projectDetails caseStudySections : list row) :
  let ps := projectsData projects projectDetails caseStudySections in
  (∀ project, In project projects →
     ∃ p, DataService.fetchProjectById ps (orString (project !! "id") EmptyString)
          = Some p
       ∧ In p ps ∧ Project.id p = projectId project)
  ∧ (∀ id, (∀ project, In project projects → projectId project ≠ trim id) →
       DataService.fetchProjectById ps id = None).
Proof.
  intros ps. unfold DataService.fetchProjectById. split.
  - intros project Hin. fold (projectId project).
    destruct (List.find (λ p, String.eqb (Project.id p) (projectId project)) ps)
      as [p|] eqn:Hfind.
    + apply List.find_some in Hfind as [Hp Hid]. apply String.eqb_eq in Hid.
      by exists p.
    + exfalso.
      assert (In (projectOf projectDetails (caseStudyById caseStudySections) project)
                ps) as Hp by (apply In_projectsData; by exists project).
      apply (List.find_none _ _ Hfind) in Hp.
      by rewrite projectOf_id, String.eqb_refl in Hp.
  - intros id Hnone.
    destruct (List.find (λ p, String.eqb (Project.id p) (trim id)) ps)
      as [p|] eqn:Hfind; [|done].
    apply List.find_some in Hfind as [(project & Hin & ->)%In_projectsData Hid].
    apply String.eqb_eq in Hid. rewrite projectOf_id in Hid.
    by destruct (Hnone project Hin).
Qed.

Lemma fetchProjectById_finds_witness :
  ∃ p, DataService.fetchProjectById
         (@projectsData Examples.decimalNumber [Examples.project_p1] [] [])
         (orString (Examples.project_p1 !! "id") EmptyString) = Some p
    ∧ Project.id p = "p1".
Proof.
  destruct (proj1 (@fetchProjectById_finds Examples.decimalNumber
                     [Examples.project_p1] [] []) Examples.project_p1)
    as (p & Hfetch & _ & Hid).
  - left. reflexivity.
  - by exists p.
Defined.

(** X22. [findProjectDetailByCaseStudyLink] is sound and complete on any project
    list: what it returns is a project of the list with one of its details
    whose trimmed link is the trimmed id, and it returns nothing exactly
    when no detail of any project has that link. *)
Theorem findProjectDetailByCaseStudyLink_sound_complete
    (ps : list Project.t) (caseStudyId : string) :
  match DataService.findProjectDetailByCaseStudyLink ps caseStudyId with
  | Some (project, detail) =>
      In project ps ∧ In detail (Project.details project)
      ∧ trim (ProjectDetail.caseStudyLink detail) = trim caseStudyId
  | None =>
      ∀ project detail, In project ps → In detail (Project.details project) →
        trim (ProjectDetail.caseStudyLink detail) ≠ trim caseStudyId
  end.
Proof.
  assert (∀ detail, DataService.linksTo caseStudyId detail = true
            ↔ trim (ProjectDetail.caseStudyLink detail) = trim caseStudyId) as Hlinks.
  { intros detail. unfold DataService.linksTo, orString.
    rewrite String.eqb_eq. by destruct (ProjectDetail.caseStudyLink detail). }
  unfold DataService.findProjectDetailByCaseStudyLink.
  destruct (List.find _ ps) as [found|] eqn:Hfound.
  - apply List.find_some in Hfound as [Hin Hsome].
    destruct (List.find _ (Project.details found)) as [detail|] eqn:Hdetail.
    + apply List.find_some in Hdetail as [Hd Hlink]. by apply Hlinks in Hlink.
    + apply existsb_exists in Hsome as (detail & Hd & Hlink).
      apply (List.find_none _ _ Hdetail) in Hd. congruence.
  - intros project detail Hin Hd Hlink.
    apply (List.find_none _ _ Hfound) in Hin.
    apply not_true_iff_false in Hin. apply Hin, existsb_exists.
    exists detail. split; [done|]. by apply Hlinks.
Qed.
